(** * gpu_matmul: chunked matrix multiplication and incremental assembly

    A shallow embedding of [scripts/gpu_matmul.py]: the policy choosing
    between one full multiply and a column-by-column multiply, and the
    [concat] routine that appends each column block to the growing result.

    Arrays are modelled by their logical content: a shape and an entry
    function.  A dask array built with [da.from_array] or [da.concatenate]
    is a lazy view; its logical content is what is modelled here, so
    [from_array] and [asnumpy] are identities on content.  Element
    arithmetic is abstract (a type with a zero, an addition and a
    multiplication), which covers any exact arithmetic.

    What the libraries refuse is modelled as the exception they raise:
    inner dimensions that differ, rows that differ in a concatenation, a
    zero step or divisor, and an array that is not a dask array handed to
    [da.to_hdf5].  Reading and writing files are taken to succeed. *)

From Stdlib Require Import NArith ZArith List Bool Lia String Sorting.Sorted.
Import ListNotations.
Open Scope N_scope.

(** ** Element arithmetic *)

Class Scalar (T : Type) : Type := {
  zero : T;
  add : T -> T -> T;
  mul : T -> T -> T
}.

#[export] Instance Scalar_Z : Scalar Z := {| zero := 0%Z; add := Z.add; mul := Z.mul |}.

(** ** Exceptions and outcomes *)

Inductive exn : Type :=
| ValueError
| ZeroDivisionError
| AttributeError.

(** What running a piece of the script ends in: a value, a call to
    [exit(status)], or an uncaught exception. *)
Inductive outcome (A : Type) : Type :=
| Done (a : A)
| Exit (status : Z)
| Raise (e : exn).

Arguments Done {A} a.
Arguments Exit {A} status.
Arguments Raise {A} e.

Definition obind {A B : Type} (o : outcome A) (k : A -> outcome B) : outcome B :=
  match o with
  | Done a => k a
  | Exit s => Exit s
  | Raise e => Raise e
  end.

Notation "'try' x <- o ; k" := (obind o (fun x => k))
  (at level 10, x name, o at level 100, k at level 200).

(** ** Python integers and ranges *)

(** [len(range(start, stop, step))] for a positive step, as CPython
    computes it. *)
Definition range_len (start stop step : N) : N :=
  if start <? stop then (stop - start + step - 1) / step else 0.

Definition iota (k : N) : list N := map N.of_nat (seq 0 (N.to_nat k)).

(** [range(start, stop, step)]; a zero step raises [ValueError]. *)
Definition range3 (start stop step : N) : outcome (list N) :=
  if step =? 0 then Raise ValueError
  else Done (map (fun k => start + k * step) (iota (range_len start stop step))).

(** [range(stop)]. *)
Definition range1 (stop : N) : list N := iota stop.

(** [math.floor(a / b)]: the quotient is a float; for the column counts an
    array can have (below 2^53) its floor is the integer quotient. *)
Definition floor_div (a b : N) : outcome N :=
  if b =? 0 then Raise ZeroDivisionError else Done (a / b).

(** [a % b]. *)
Definition py_mod (a b : N) : outcome N :=
  if b =? 0 then Raise ZeroDivisionError else Done (a mod b).

(** Truth value of an integer flag such as [args.cpu_only]. *)
Definition truthy (z : Z) : bool := negb (z =? 0)%Z.

(** ** Arrays *)

Section Arrays.
Context {T : Type} `{Scalar T}.

(** A 2-D array: [shape = (shape0, shape1)] and its entries. *)
Record ndarray : Type := mkArray {
  shape0 : N;
  shape1 : N;
  item : N -> N -> T
}.

Definition shape (X : ndarray) : N * N := (shape0 X, shape1 X).

(** Logical equality: same shape, same entry at every index in range. *)
Definition same_array (X Y : ndarray) : Prop :=
  shape0 X = shape0 Y /\ shape1 X = shape1 Y /\
  forall r c, r < shape0 X -> c < shape1 X -> item X r c = item Y r c.

(** All entries, row by row. *)
Definition to_rows (X : ndarray) : list (list T) :=
  map (fun r => map (fun c => item X r c) (iota (shape1 X))) (iota (shape0 X)).

(** Bounds of a slice [lo:hi] ([hi = None] for [lo:]) of an axis of
    length [len], for non-negative bounds: both are clipped to [len]. *)
Definition slice_bounds (lo : N) (hi : option N) (len : N) : N * N :=
  (N.min lo len, match hi with Some h => N.min h len | None => len end).

(** [X[:, lo:hi]]. *)
Definition slice_cols (lo : N) (hi : option N) (X : ndarray) : ndarray :=
  let '(start, stop) := slice_bounds lo hi (shape1 X) in
  mkArray (shape0 X) (stop - start) (fun r c => item X r (start + c)).

(** Sum of [f 0 .. f (k-1)], left to right. *)
Definition sum_upto (k : N) (f : N -> T) : T :=
  fold_left (fun acc l => add acc (f l)) (iota k) zero.

(** The product of [X] and [Y]: entry [(r, c)] is the sum over [l] of
    [X[r, l] * Y[l, c]]. *)
Definition product (X Y : ndarray) : ndarray :=
  mkArray (shape0 X) (shape1 Y)
    (fun r c => sum_upto (shape1 X) (fun l => mul (item X r l) (item Y l c))).

(** [xp.matmul(X, Y)] and [xp.dot(X, Y)] on 2-D arrays; the inner
    dimensions must agree. *)
Definition matmul (X Y : ndarray) : outcome ndarray :=
  if shape1 X =? shape0 Y then Done (product X Y) else Raise ValueError.

(** [xp.asnumpy(X)]: device-to-host copy. *)
Definition asnumpy (X : ndarray) : ndarray := X.

(** [da.from_array(X)]: lazy view of [X]. *)
Definition from_array (X : ndarray) : ndarray := X.

(** Two arrays side by side (axis 1) and one above the other (axis 0). *)
Definition hstack (X Y : ndarray) : ndarray :=
  mkArray (shape0 X) (shape1 X + shape1 Y)
    (fun r c => if c <? shape1 X then item X r c else item Y r (c - shape1 X)).

Definition vstack (X Y : ndarray) : ndarray :=
  mkArray (shape0 X + shape0 Y) (shape1 X)
    (fun r c => if r <? shape0 X then item X r c else item Y (r - shape0 X) c).

Definition join (axis : N) (X Y : ndarray) : outcome ndarray :=
  match axis with
  | 0 => if shape1 X =? shape1 Y then Done (vstack X Y) else Raise ValueError
  | 1 => if shape0 X =? shape0 Y then Done (hstack X Y) else Raise ValueError
  | _ => Raise ValueError
  end.

(** [da.concatenate(seq, axis=axis)]: the arrays of [seq] joined in
    order; the other dimension must agree, and [seq] must not be empty. *)
Definition concatenate (seq : list ndarray) (axis : N) : outcome ndarray :=
  match seq with
  | [] => Raise ValueError
  | X :: rest => fold_left (fun acc Y => try A <- acc; join axis A Y) rest (Done X)
  end.

End Arrays.

Arguments ndarray T : clear implicits.

(** ** The script *)

Definition GPU_IND_LIMIT : N := 250000000.
Definition GPU_COL_LIMIT : N := 5000.
Definition SPLIT_SIZE : N := 500.

(** Parsed command line. *)
Record Args : Type := mkArgs {
  m1 : string;
  m2 : string;
  ofile : string;
  cpu_only : Z;
  fp16 : Z;
  hdf5 : Z
}.

(** Lines written by [print]. *)
Inductive message : Type :=
| LoadingNumpy
| LoadingCupy
| DimensionError (shapeA shapeB : N * N)
| LargeResult (dims : N * N)
| ColumnByColumn
| Iteration (i : N)
| CurrentShape (dims : N * N)
| TypeToSave
| MultiplicationDone.

(** What is left open about the cupy release in use.  [cupy.save(file,
    arr)] hands [arr] to [numpy.save] as a host array; releases differ in
    how they get it: through [cupy.asnumpy], which takes any array-like
    (a dask array included), or through [arr.get()], which only a cupy
    array has. *)
Class Cupy : Type := {
  save_takes_array_like : bool
}.

(** [s.endswith(suffix)]. *)
Definition ends_with (suffix s : string) : bool :=
  let n := String.length s in
  let k := String.length suffix in
  (k <=? n)%nat && String.eqb (substring (n - k) k s) suffix.

(** The file [numpy.save(file, arr)] writes: [file], with [.npy] added
    when it does not end with it. *)
Definition npy_name (file : string) : string :=
  if ends_with ".npy" file then file else file ++ ".npy".

Section Script.
Context {T : Type} `{Scalar T}.

(** What a run does that can be seen from outside, in order. *)
Inductive event : Type :=
| Print (line : message)
| Dot                                   (* xp.dot(A, B) *)
| Matmul (cols : N * N)                 (* xp.matmul(A, B[:, lo:hi]) *)
| Save (path : string) (AB : ndarray T)
| ToHdf5 (path dataset : string) (AB : ndarray T).

(** A computation: the events it performed and how it ended. *)
Definition prog (A : Type) : Type := list event * outcome A.

Definition ret {A : Type} (a : A) : prog A := ([], Done a).

Definition bind {A B : Type} (p : prog A) (k : A -> prog B) : prog B :=
  match p with
  | (tr, Done a) => let '(tr', o) := k a in (tr ++ tr', o)
  | (tr, Exit s) => (tr, Exit s)
  | (tr, Raise e) => (tr, Raise e)
  end.

Definition emit (e : event) : prog unit := ([e], Done tt).
Definition print (line : message) : prog unit := emit (Print line).
Definition exit {A : Type} (status : Z) : prog A := ([], Exit status).
Definition lift {A : Type} (o : outcome A) : prog A := ([], o).

(** [for x in xs: st = body st x]. *)
Fixpoint for_each {S : Type} (xs : list N) (st : S) (body : S -> N -> prog S) : prog S :=
  match xs with
  | [] => ret st
  | x :: xs' => bind (body st x) (fun st' => for_each xs' st' body)
  end.

End Script.

Arguments event T : clear implicits.
Arguments prog T A : clear implicits.

Notation "x <- p ;; k" := (bind p (fun x => k))
  (at level 61, p at next level, right associativity).
Notation "p ;; k" := (bind p (fun _ => k))
  (at level 61, right associativity).

Section Engine.
Context {T : Type} `{Scalar T} {cp : Cupy}.

(** [concat(AB, AB_js_n, axis)], with the module constant [SPLIT_SIZE]
    taken as the parameter [split].  [AB = None] is Python's [None]. *)
Definition concat_with (split : N) (AB : option (ndarray T)) (AB_js_n : ndarray T)
    (axis : N) : outcome (ndarray T) :=
  match AB with
  | None => Done (from_array AB_js_n)
  | Some AB =>
      try nsplits <- floor_div (shape1 AB_js_n) split;
      let sliced :=
        map (fun ind => from_array
               (slice_cols (ind * split) (Some (ind * split + split)) AB_js_n))
            (range1 nsplits) in
      let l := [AB] ++ sliced in
      try AB <- concatenate l axis;
      try rest <- py_mod (shape1 AB_js_n) split;
      if 0 <? rest then
        let last_slice := from_array
          (slice_cols (nsplits * split) (Some (nsplits * split + split)) AB_js_n) in
        concatenate [AB; last_slice] axis
      else Done AB
  end.

Definition concat : option (ndarray T) -> ndarray T -> N -> outcome (ndarray T) :=
  concat_with SPLIT_SIZE.

(** [xp.matmul(A, B[:, lo:hi])], recorded with the columns it covers. *)
Definition matmul_cols (A B : ndarray T) (lo : N) (hi : option N) : prog T (ndarray T) :=
  emit (Matmul (slice_bounds lo hi (shape1 B))) ;;
  lift (matmul A (slice_cols lo hi B)).

(** One turn of the loop of [main], lines 60-65; the state is
    [(AB, prev_i)]. *)
Definition blocked_step (split : N) (A B : ndarray T)
    (st : option (ndarray T) * N) (i : N) : prog T (option (ndarray T) * N) :=
  let '(AB, prev_i) := st in
  AB_js <- matmul_cols A B prev_i (Some i) ;;
  let AB_js_n := asnumpy AB_js in
  AB <- lift (concat_with split AB AB_js_n 1) ;;
  let prev_i := i in
  print (Iteration i) ;;
  print (CurrentShape (shape AB)) ;;
  ret (Some AB, prev_i).

(** Lines 57-65: the loop over [range(width, B.shape[1], width)]. *)
Definition blocked_loop (width split : N) (A B : ndarray T)
    : prog T (option (ndarray T) * N) :=
  let AB := None in
  let prev_i := 0 in
  items <- lift (range3 width (shape1 B) width) ;;
  for_each items (AB, prev_i) (blocked_step split A B).

(** Lines 66-68: the last columns, [B[:, prev_i:]]. *)
Definition blocked_flush (split : N) (A B : ndarray T)
    (st : option (ndarray T) * N) : prog T (ndarray T) :=
  let '(AB, prev_i) := st in
  AB_js <- matmul_cols A B prev_i None ;;
  let AB_js_n := asnumpy AB_js in
  lift (concat_with split AB AB_js_n 1).

(** Lines 57-68, with [GPU_COL_LIMIT] and [SPLIT_SIZE] as parameters. *)
Definition blocked_mode (width split : N) (A B : ndarray T) : prog T (ndarray T) :=
  st <- blocked_loop width split A B ;;
  blocked_flush split A B st.

(** Line 70. *)
Definition direct_mode (A B : ndarray T) : prog T (ndarray T) :=
  emit Dot ;; lift (matmul A B).

(** The test of line 54. *)
Definition too_large (args : Args) (A B : ndarray T) : bool :=
  negb (truthy (cpu_only args)) && (GPU_IND_LIMIT <? shape0 A * shape1 B).

(** What [AB] is when it comes to be saved: an array of the array
    library in use (from [xp.dot], line 70) or a dask array (from
    [concat], lines 62 and 68). *)
Inductive result_array : Type :=
| XpArray (X : ndarray T)
| DaskArray (X : ndarray T).

Definition content (AB : result_array) : ndarray T :=
  match AB with
  | XpArray X => X
  | DaskArray X => X
  end.

(** Lines 54-70: [AB], one way or the other. *)
Definition multiply (args : Args) (A B : ndarray T) : prog T result_array :=
  if too_large args A B
  then print (LargeResult (shape0 A, shape1 B)) ;;
       print ColumnByColumn ;;
       AB <- blocked_mode GPU_COL_LIMIT SPLIT_SIZE A B ;;
       ret (DaskArray AB)
  else AB <- direct_mode A B ;;
       ret (XpArray AB).

(** [da.to_hdf5(filename, datapath, AB)]: a dask array is stored under
    [datapath]; anything else is refused with [ValueError], before the
    file is opened. *)
Definition to_hdf5 (filename datapath : string) (AB : result_array) : prog T unit :=
  match AB with
  | DaskArray X => emit (ToHdf5 filename datapath X)
  | XpArray _ => lift (Raise ValueError)
  end.

(** [xp.save(file, AB)], [xp] being numpy when [numpy] is set and cupy
    otherwise.  [numpy.save] converts what it is given with
    [asanyarray]; for [cupy.save] and a dask array see [Cupy]. *)
Definition xp_save (numpy : bool) (file : string) (AB : result_array) : prog T unit :=
  match AB with
  | XpArray X => emit (Save (npy_name file) X)
  | DaskArray X =>
      if numpy || save_takes_array_like
      then emit (Save (npy_name file) X)
      else lift (Raise AttributeError)
  end.

(** Lines 76-80: the write and the closing line. *)
Definition finish (args : Args) (AB : result_array) : prog T unit :=
  (if truthy (hdf5 args)
   then to_hdf5 (ofile args ++ ".hdf5") "/AB" AB
   else xp_save (truthy (cpu_only args)) (ofile args) AB) ;;
  print MultiplicationDone.

(** [main], from the two loaded arrays on (lines 51-80).  The [dtype]
    chosen from [args.fp16] is not used by the script.  Reading and
    writing files are taken to succeed. *)
Definition main (args : Args) (A B : ndarray T) : prog T unit :=
  (if truthy (cpu_only args) then print LoadingNumpy else print LoadingCupy) ;;
  (if negb (shape1 A =? shape0 B)
   then print (DimensionError (shape A) (shape B)) ;; exit 1
   else ret tt) ;;
  AB <- multiply args A B ;;
  print TypeToSave ;;
  print (CurrentShape (shape (content AB))) ;;
  finish args AB.

(** *** Reading a trace *)

(** The column ranges of the block multiplies, in the order performed. *)
Fixpoint blocks_of (tr : list (event T)) : list (N * N) :=
  match tr with
  | [] => []
  | Matmul r :: tr' => r :: blocks_of tr'
  | _ :: tr' => blocks_of tr'
  end.

Definition is_multiply (e : event T) : bool :=
  match e with Dot | Matmul _ => true | _ => false end.

(** The multiplications performed. *)
Definition multiplies (tr : list (event T)) : list (event T) := filter is_multiply tr.

(** The arrays written to disk. *)
Fixpoint artifacts (tr : list (event T)) : list (ndarray T) :=
  match tr with
  | [] => []
  | Save _ AB :: tr' => AB :: artifacts tr'
  | ToHdf5 _ _ AB :: tr' => AB :: artifacts tr'
  | _ :: tr' => artifacts tr'
  end.

(** The lines printed, in order. *)
Fixpoint printed (tr : list (event T)) : list message :=
  match tr with
  | [] => []
  | Print line :: tr' => line :: printed tr'
  | _ :: tr' => printed tr'
  end.

(** The assembler fed with the blocks of the column ranges [rs], in
    list order, starting from [AB]. *)
Fixpoint assemble (split : N) (A B : ndarray T) (AB : option (ndarray T))
    (rs : list (N * N)) : outcome (option (ndarray T)) :=
  match rs with
  | [] => Done AB
  | (lo, hi) :: rs' =>
      try blk <- matmul A (slice_cols lo (Some hi) B);
      try AB' <- concat_with split AB (asnumpy blk) 1;
      assemble split A B (Some AB') rs'
  end.

(** *** What the blocked mode is expected to do *)

(** The column ranges of blocked mode for [n] columns: one full range
    per item of [range(width, n, width)], then the rest up to [n]. *)
Definition column_ranges (width n : N) : list (N * N) :=
  let len := range_len width n width in
  map (fun k => (k * width, k * width + width)) (iota len) ++ [(len * width, n)].

(** The events of the loop for an [m]-row result, [len] turns. *)
Definition loop_trace (width m len : N) : list (event T) :=
  flat_map (fun k => [Matmul (k * width, k * width + width);
                      Print (Iteration (k * width + width));
                      Print (CurrentShape (m, k * width + width))])
           (iota len).

(** [AB] holds the first [c] columns of the product of [A] and [B]
    ([None] when nothing was appended yet). *)
Definition accumulated_upto (A B : ndarray T) (c : N) (AB : option (ndarray T)) : Prop :=
  match AB with
  | None => c = 0
  | Some X => 0 < c /\ same_array X (slice_cols 0 (Some c) (product A B))
  end.

End Engine.

Arguments result_array T : clear implicits.

(** A list of half-open ranges tiles [[lo, hi)] with pieces of width at
    most [width]: each piece is non-empty and starts where the previous
    one stopped. *)
Inductive tiles (width : N) : N -> N -> list (N * N) -> Prop :=
| tiles_last lo hi :
    lo < hi -> hi - lo <= width -> tiles width lo hi [(lo, hi)]
| tiles_cons lo mid hi rs :
    lo < mid -> mid - lo <= width -> tiles width mid hi rs ->
    tiles width lo hi ((lo, mid) :: rs).

(** Two ranges in list order: the first ends before the second starts. *)
Definition before (r s : N * N) : Prop := snd r <= fst s.

(** A column index lies in a range. *)
Definition within (x : N) (r : N * N) : Prop := fst r <= x < snd r.

(** Two ranges share no column. *)
Definition disjoint (r s : N * N) : Prop := forall x, ~ (within x r /\ within x s).

(** ** Sample inputs *)

Module Samples.

(** An array over [Z] whose entry at [(r, c)] is [f r c]. *)
Definition tabulate (rows cols : N) (f : N -> N -> Z) : ndarray Z :=
  mkArray rows cols f.

Definition A43 : ndarray Z := tabulate 4 3 (fun r c => Z.of_N (3 * r + c + 1)).
Definition B34 : ndarray Z := tabulate 3 4 (fun r c => Z.of_N (r + 2 * c) - 3)%Z.
Definition A22 : ndarray Z := tabulate 2 2 (fun r c => Z.of_N (r + c) + 1)%Z.
Definition B25 : ndarray Z := tabulate 2 5 (fun r c => Z.of_N (r * 5 + c))%Z.
Definition B54 : ndarray Z := tabulate 5 4 (fun r c => Z.of_N (r + c)).

(** Shapes past the element limit: 25001 x 10000 and 50001 x 5001. *)
Definition tall : ndarray Z := tabulate 25001 1 (fun r _ => Z.of_N r).
Definition wide : ndarray Z := tabulate 1 10000 (fun _ c => Z.of_N c).
Definition taller : ndarray Z := tabulate 50001 1 (fun r _ => Z.of_N r).
Definition wide5001 : ndarray Z := tabulate 1 5001 (fun _ c => Z.of_N c).

(** A result of exactly 250,000,000 entries: 25000 x 10000. *)
Definition at_limit : ndarray Z := tabulate 25000 1 (fun r _ => Z.of_N r).

(** A block of four rows and no column. *)
Definition no_columns : ndarray Z := tabulate 4 0 (fun _ _ => 0%Z).

(** The two readings of [cupy.save]. *)
Definition save_by_asnumpy : Cupy := {| save_takes_array_like := true |}.
Definition save_by_get : Cupy := {| save_takes_array_like := false |}.

Definition gpu_args : Args := mkArgs "a.npy" "b.npy" "ab.npy" 0 1 0.
Definition cpu_args : Args := mkArgs "a.npy" "b.npy" "ab.npy" 1 1 0.
Definition hdf5_args : Args := mkArgs "a.npy" "b.npy" "ab" 0 1 1.

End Samples.


(** * Properties *)

(** ** Ranges and integer arithmetic *)

Lemma iota_succ (k : N) : iota (N.succ k) = iota k ++ [k].
Proof.
  unfold iota. rewrite N2Nat.inj_succ, seq_S, map_app. simpl.
  now rewrite N2Nat.id.
Qed.

Lemma in_iota (k x : N) : In x (iota k) <-> x < k.
Proof.
  unfold iota. rewrite in_map_iff. split.
  - intros (j & <- & Hj). apply in_seq in Hj. lia.
  - intros Hx. exists (N.to_nat x). split; [apply N2Nat.id |].
    apply in_seq. lia.
Qed.

(** The ceiling division behind [range_len]. *)
Lemma ceil_div_lt (d s k : N) :
  1 <= s -> (k < (d + s - 1) / s <-> k * s < d).
Proof.
  intros Hs.
  assert (Hne : s <> 0) by lia.
  pose proof (N.Div0.mul_div_le (d + s - 1) s) as Hlo.
  pose proof (N.mul_succ_div_gt (d + s - 1) s Hne) as Hhi.
  set (q := (d + s - 1) / s) in *.
  split; intros Hk; nia.
Qed.

(** [k] indexes an item of [range(start, stop, step)] exactly when that
    item is below [stop]. *)
Lemma range_len_spec (start stop step k : N) :
  1 <= step -> (k < range_len start stop step <-> start + k * step < stop).
Proof.
  intros Hs. unfold range_len.
  destruct (N.ltb_spec start stop) as [Hlt | Hge].
  - replace (stop - start + step - 1) with ((stop - start) + step - 1) by lia.
    rewrite ceil_div_lt by assumption. lia.
  - split; [lia | nia].
Qed.

(** The cursor left by the loop over [range(width, n, width)] is at most
    [n], at most [width] columns remain after it, and at least one does
    when [n] is positive. *)
Lemma cursor_bounds (width n : N) :
  1 <= width ->
  let prev_i := range_len width n width * width in
  prev_i <= n /\ n - prev_i <= width /\ (1 <= n -> prev_i < n).
Proof.
  intros Hwidth prev_i. subst prev_i.
  set (len := range_len width n width).
  assert (Hnot : ~ width + len * width < n).
  { intros Hlt. apply (range_len_spec width n width len Hwidth) in Hlt. lia. }
  assert (Hprev : len = 0 \/ width + (len - 1) * width < n).
  { destruct (N.eq_dec len 0) as [| Hne]; [now left | right].
    apply (range_len_spec width n width (len - 1) Hwidth). lia. }
  split; [| split]; [| lia |]; destruct Hprev as [-> | Hprev]; try lia;
    try (intros; nia); nia.
Qed.

(** When [width] divides a positive [n], the loop stops one full block
    before the end. *)
Lemma range_len_multiple (width q : N) :
  1 <= width -> 1 <= q -> range_len width (q * width) width = q - 1.
Proof.
  intros Hwidth Hq.
  set (len := range_len width (q * width) width).
  assert (Hnot : ~ width + len * width < q * width).
  { intros Hlt. apply (range_len_spec width (q * width) width len Hwidth) in Hlt. lia. }
  assert (Hprev : len = 0 \/ width + (len - 1) * width < q * width).
  { destruct (N.eq_dec len 0) as [| Hne]; [now left | right].
    apply (range_len_spec width (q * width) width (len - 1) Hwidth). lia. }
  destruct Hprev as [H0 | Hprev]; nia.
Qed.

(** ** Tilings *)

Lemma tiles_pieces (width lo hi : N) (rs : list (N * N)) :
  tiles width lo hi rs ->
  Forall (fun r => fst r < snd r /\ snd r - fst r <= width) rs.
Proof.
  induction 1; constructor; simpl; auto.
Qed.

Lemma tiles_inside (width lo hi : N) (rs : list (N * N)) :
  tiles width lo hi rs ->
  lo < hi /\ Forall (fun r => lo <= fst r /\ snd r <= hi) rs.
Proof.
  induction 1 as [lo hi Hlt Hw | lo mid hi rs Hlt Hw Ht (IHlt & IHall)].
  - split; [assumption |]. constructor; [simpl; lia | constructor].
  - split; [lia |]. constructor; [simpl; lia |].
    eapply Forall_impl; [| exact IHall]. simpl. intros r Hr. lia.
Qed.

Lemma tiles_sorted (width lo hi : N) (rs : list (N * N)) :
  tiles width lo hi rs -> StronglySorted before rs.
Proof.
  induction 1 as [lo hi Hlt Hw | lo mid hi rs Hlt Hw Ht IH].
  - repeat constructor.
  - constructor; [assumption |].
    apply tiles_inside in Ht as (_ & Hall).
    eapply Forall_impl; [| exact Hall]. unfold before. simpl. intros r Hr. lia.
Qed.

Lemma tiles_disjoint (width lo hi : N) (rs : list (N * N)) :
  tiles width lo hi rs -> ForallOrdPairs disjoint rs.
Proof.
  intros Ht. apply tiles_sorted in Ht.
  induction Ht as [| r rs Hs IH Hall]; constructor; [| assumption].
  eapply Forall_impl; [| exact Hall].
  unfold before, disjoint, within. intros s Hrs x. lia.
Qed.

Lemma tiles_cover (width lo hi : N) (rs : list (N * N)) :
  tiles width lo hi rs ->
  forall x, lo <= x < hi <-> Exists (within x) rs.
Proof.
  induction 1 as [lo hi Hlt Hw | lo mid hi rs Hlt Hw Ht IH]; intros x.
  - split.
    + intros Hx. now constructor.
    + intros Hx. inversion Hx as [? ? Hin | ? ? Hin]; subst;
        [exact Hin | inversion Hin].
  - pose proof (tiles_inside _ _ _ _ Ht) as (Hmid & _).
    split.
    + intros Hx. destruct (N.lt_ge_cases x mid).
      * constructor. unfold within. simpl. lia.
      * apply Exists_cons_tl. apply IH. lia.
    + intros Hx. inversion Hx as [? ? Hin | ? ? Hin]; subst.
      * unfold within in Hin. simpl in Hin. lia.
      * apply IH in Hin. lia.
Qed.

(** The ranges of blocked mode tile [[0, n)]. *)
Lemma column_ranges_tile (width n : N) :
  1 <= width -> 1 <= n -> tiles width 0 n (column_ranges width n).
Proof.
  intros Hwidth Hn. unfold column_ranges, iota.
  set (len := range_len width n width).
  destruct (cursor_bounds width n Hwidth) as (Hle & Hrest & Hlt). fold len in Hle, Hrest, Hlt.
  assert (Hgen : forall (k j : nat), (j + k)%nat = N.to_nat len ->
            tiles width (N.of_nat j * width) n
              (map (fun k => (k * width, k * width + width))
                   (map N.of_nat (seq j k)) ++ [(len * width, n)])).
  { induction k as [| k IH]; intros j Hjk; simpl.
    - replace (N.of_nat j) with len by lia. apply tiles_last; [auto | lia].
    - apply tiles_cons; [lia | lia |].
      replace (N.of_nat j * width + width) with (N.of_nat (S j) * width) by lia.
      apply IH. lia. }
  apply (Hgen (N.to_nat len) 0%nat). lia.
Qed.

(** ** Arrays *)

Section ArrayFacts.
Context {T : Type} `{Scalar T}.
Implicit Types X Y Z : ndarray T.

Lemma same_array_refl X : same_array X X.
Proof. repeat split. Qed.

Lemma same_array_sym X Y : same_array X Y -> same_array Y X.
Proof.
  intros (H0 & H1 & Hi). repeat split; try congruence.
  intros r c Hr Hc. symmetry. apply Hi; congruence.
Qed.

Lemma same_array_trans X Y Z : same_array X Y -> same_array Y Z -> same_array X Z.
Proof.
  intros (H0 & H1 & Hi) (H0' & H1' & Hi'). repeat split; try congruence.
  intros r c Hr Hc. rewrite Hi by assumption. apply Hi'; congruence.
Qed.

(** Arrays that are logically equal list the same entries. *)
Lemma same_array_rows X Y : same_array X Y -> to_rows X = to_rows Y.
Proof.
  intros (H0 & H1 & Hi). unfold to_rows. rewrite <- H0, <- H1.
  apply map_ext_in. intros r Hr. apply map_ext_in. intros c Hc.
  apply in_iota in Hr, Hc. now apply Hi.
Qed.

Lemma hstack_same X X' Y Y' :
  shape0 X = shape0 Y ->
  same_array X X' -> same_array Y Y' -> same_array (hstack X Y) (hstack X' Y').
Proof.
  intros Hrows (H0 & H1 & Hi) (H0' & H1' & Hi'). unfold hstack, same_array. simpl.
  repeat split; try congruence.
  intros r c Hr Hc. rewrite <- H1.
  destruct (N.ltb_spec c (shape1 X)).
  - now apply Hi.
  - apply Hi'; lia.
Qed.

Lemma hstack_assoc X Y Z :
  same_array (hstack (hstack X Y) Z) (hstack X (hstack Y Z)).
Proof.
  unfold hstack, same_array. simpl. repeat split; try lia.
  intros r c Hr Hc.
  destruct (N.ltb_spec c (shape1 X + shape1 Y)), (N.ltb_spec c (shape1 X));
    try lia; try reflexivity.
  - destruct (N.ltb_spec (c - shape1 X) (shape1 Y)); [reflexivity | lia].
  - destruct (N.ltb_spec (c - shape1 X) (shape1 Y)); [lia |].
    f_equal. lia.
Qed.

Lemma slice_cols_shape0 lo hi X : shape0 (slice_cols lo hi X) = shape0 X.
Proof. reflexivity. Qed.

(** [X[:, lo:]] is [X[:, lo:X.shape[1]]]. *)
Lemma slice_cols_open lo X : slice_cols lo None X = slice_cols lo (Some (shape1 X)) X.
Proof. unfold slice_cols, slice_bounds. now rewrite N.min_id. Qed.

(** Two adjacent slices side by side are the slice over both. *)
Lemma slice_cols_adjacent a b X :
  a <= b ->
  same_array (hstack (slice_cols 0 (Some a) X) (slice_cols a (Some b) X))
             (slice_cols 0 (Some b) X).
Proof.
  intros Hab. unfold hstack, slice_cols, slice_bounds, same_array. simpl.
  repeat split; try lia.
  intros r c Hr Hc.
  destruct (N.ltb_spec c (N.min a (shape1 X) - N.min 0 (shape1 X)));
    f_equal; lia.
Qed.

(** A slice from 0 that reaches the last column is the whole array. *)
Lemma slice_cols_all b X :
  shape1 X <= b -> same_array (slice_cols 0 (Some b) X) X.
Proof.
  intros Hb. unfold slice_cols, slice_bounds, same_array. simpl.
  repeat split; try lia.
  intros r c Hr Hc. f_equal. lia.
Qed.

(** The block product is the matching slice of the full product. *)
Lemma matmul_slice A B lo hi :
  shape1 A = shape0 B ->
  matmul A (slice_cols lo hi B) = Done (slice_cols lo hi (product A B)).
Proof.
  intros Hk. unfold matmul. rewrite slice_cols_shape0, Hk, N.eqb_refl.
  reflexivity.
Qed.

Lemma matmul_ok A B : shape1 A = shape0 B -> matmul A B = Done (product A B).
Proof. intros Hk. unfold matmul. now rewrite Hk, N.eqb_refl. Qed.

Lemma matmul_mismatch A B : shape1 A <> shape0 B -> matmul A B = Raise ValueError.
Proof. intros Hk. unfold matmul. now apply N.eqb_neq in Hk as ->. Qed.

Lemma join_cols X Y : shape0 X = shape0 Y -> join 1 X Y = Done (hstack X Y).
Proof. intros Hr. unfold join. now rewrite Hr, N.eqb_refl. Qed.

(** Appending one more array to a non-empty sequence. *)
Lemma concatenate_snoc X (l : list (ndarray T)) Y axis :
  concatenate (X :: l ++ [Y]) axis =
  try A <- concatenate (X :: l) axis; join axis A Y.
Proof. unfold concatenate. now rewrite fold_left_app. Qed.

End ArrayFacts.

(** ** The assembler *)

Section AssemblerFacts.
Context {T : Type} `{Scalar T}.
Implicit Types X Y : ndarray T.

(** The [k] first sub-blocks of [Y], appended to [X] one by one, are the
    first [k * split] columns of [Y] appended to [X]. *)
Lemma concatenate_sub_blocks (split : N) X Y :
  shape0 X = shape0 Y ->
  forall k, exists R,
    concatenate
      (X :: map (fun ind => from_array
                   (slice_cols (ind * split) (Some (ind * split + split)) Y))
                (iota k)) 1 = Done R /\
    same_array R (hstack X (slice_cols 0 (Some (k * split)) Y)).
Proof.
  intros Hrows k. induction k as [| k (R & HR & Hsame)] using N.peano_ind.
  - exists X. split; [reflexivity |].
    unfold hstack, slice_cols, slice_bounds, same_array. simpl.
    repeat split; try lia.
    intros r c Hr Hc. destruct (N.ltb_spec c (shape1 X)); [reflexivity | lia].
  - rewrite iota_succ, map_app. simpl map.
    rewrite concatenate_snoc, HR. cbn [obind]. unfold from_array.
    assert (HR0 : shape0 R = shape0 X) by apply Hsame.
    rewrite join_cols by (rewrite slice_cols_shape0; congruence).
    eexists. split; [reflexivity |].
    eapply same_array_trans.
    { apply hstack_same; [rewrite slice_cols_shape0; congruence
                         | exact Hsame | apply same_array_refl]. }
    eapply same_array_trans; [apply hstack_assoc |].
    apply hstack_same; [assumption | apply same_array_refl |].
    rewrite N.mul_succ_l. apply slice_cols_adjacent. lia.
Qed.

(** Appending to an accumulated array: the sub-split path gives the
    accumulated array with the whole block to its right. *)
Lemma concat_with_some (split : N) X Y :
  1 <= split -> shape0 X = shape0 Y ->
  exists R, concat_with split (Some X) Y 1 = Done R /\
            same_array R (hstack X Y).
Proof.
  intros Hsplit Hrows. unfold concat_with, floor_div, py_mod.
  destruct (N.eqb_spec split 0) as [| Hne]; [lia |]. cbn [obind].
  destruct (concatenate_sub_blocks split X Y Hrows (shape1 Y / split))
    as (R & HR & Hsame).
  unfold range1. cbn [app]. rewrite HR. cbn [obind].
  assert (HR0 : shape0 R = shape0 X) by apply Hsame.
  pose proof (N.div_mod (shape1 Y) split Hne) as Hdm.
  pose proof (N.mod_upper_bound (shape1 Y) split Hne) as Hub.
  destruct (N.ltb_spec 0 (shape1 Y mod split)) as [Hpos | Hzero].
  - unfold from_array. cbn [concatenate fold_left obind].
    rewrite join_cols by (rewrite slice_cols_shape0; congruence).
    eexists. split; [reflexivity |].
    eapply same_array_trans.
    { apply hstack_same; [rewrite slice_cols_shape0; congruence
                         | exact Hsame | apply same_array_refl]. }
    eapply same_array_trans; [apply hstack_assoc |].
    apply hstack_same; [assumption | apply same_array_refl |].
    eapply same_array_trans; [apply slice_cols_adjacent; lia |].
    apply slice_cols_all. lia.
  - exists R. split; [reflexivity |].
    eapply same_array_trans; [exact Hsame |].
    apply hstack_same; [assumption | apply same_array_refl |].
    apply slice_cols_all. lia.
Qed.

(** An unset accumulated array becomes the block itself. *)
Lemma concat_with_none (split : N) Y axis : concat_with split None Y axis = Done Y.
Proof. reflexivity. Qed.

(** The remainder slice, taken with the end [nsplits * split + split]
    that may lie past the last column, has the last
    [Y.shape[1] mod split] columns of [Y]. *)
Lemma remainder_slice (split : N) Y :
  1 <= split ->
  let nsplits := shape1 Y / split in
  let last_slice := slice_cols (nsplits * split) (Some (nsplits * split + split)) Y in
  shape0 last_slice = shape0 Y /\
  shape1 last_slice = shape1 Y mod split /\
  forall r c, c < shape1 Y mod split ->
    item last_slice r c = item Y r (shape1 Y - shape1 Y mod split + c).
Proof.
  intros Hsplit nsplits last_slice.
  assert (Hne : split <> 0) by lia.
  pose proof (N.div_mod (shape1 Y) split Hne) as Hdm.
  pose proof (N.mod_upper_bound (shape1 Y) split Hne) as Hub.
  subst last_slice nsplits. unfold slice_cols, slice_bounds. simpl.
  set (q := shape1 Y / split) in *. set (m := shape1 Y mod split) in *.
  split; [reflexivity |]. split; [nia |].
  intros r c Hc. f_equal. nia.
Qed.

End AssemblerFacts.

(** ** Running the script *)

Section RunFacts.
Context {T : Type} `{Scalar T}.

Lemma bind_assoc {A B C : Type} (p : prog T A) (f : A -> prog T B) (g : B -> prog T C) :
  bind (bind p f) g = bind p (fun a => bind (f a) g).
Proof.
  destruct p as [tr [a | s | e]]; try reflexivity.
  simpl. destruct (f a) as [tr' [b | s | e]]; simpl; try reflexivity.
  destruct (g b) as [tr'' o]. now rewrite app_assoc.
Qed.

Lemma bind_ext {A B : Type} (p : prog T A) (f g : A -> prog T B) :
  (forall a, f a = g a) -> bind p f = bind p g.
Proof.
  intros Hfg. destruct p as [tr [a | s | e]]; try reflexivity.
  simpl. now rewrite Hfg.
Qed.

Lemma for_each_snoc {S : Type} (xs : list N) (x : N) (st : S) (body : S -> N -> prog T S) :
  for_each (xs ++ [x]) st body =
  bind (for_each xs st body) (fun st' => body st' x).
Proof.
  revert st. induction xs as [| y xs IH]; intros st; simpl.
  - destruct (body st x) as [tr [a | s | e]]; simpl; try reflexivity.
    now rewrite app_nil_r.
  - rewrite bind_assoc. apply bind_ext. exact IH.
Qed.

Lemma blocks_of_app (tr tr' : list (event T)) :
  blocks_of (tr ++ tr') = blocks_of tr ++ blocks_of tr'.
Proof.
  induction tr as [| [] tr IH]; simpl; try assumption.
  - reflexivity.
  - now rewrite IH.
Qed.

Lemma artifacts_app (tr tr' : list (event T)) :
  artifacts (tr ++ tr') = artifacts tr ++ artifacts tr'.
Proof.
  induction tr as [| [] tr IH]; simpl; try assumption.
  - reflexivity.
  - now rewrite IH.
  - now rewrite IH.
Qed.

Lemma multiplies_app (tr tr' : list (event T)) :
  multiplies (tr ++ tr') = multiplies tr ++ multiplies tr'.
Proof. apply filter_app. Qed.

Lemma assemble_snoc (split : N) (A B : ndarray T) AB rs lo hi :
  assemble split A B AB (rs ++ [(lo, hi)]) =
  try AB1 <- assemble split A B AB rs;
  try blk <- matmul A (slice_cols lo (Some hi) B);
  try AB' <- concat_with split AB1 (asnumpy blk) 1;
  Done (Some AB').
Proof.
  revert AB. induction rs as [| [a b] rs IH]; intros AB; simpl.
  - reflexivity.
  - destruct (matmul A (slice_cols a (Some b) B)) as [blk | s | e]; try reflexivity.
    simpl. destruct (concat_with split AB (asnumpy blk) 1) as [R | s | e];
      try reflexivity.
    simpl. apply IH.
Qed.

(** *** The loop trace, read back *)

Lemma loop_trace_succ (width m j : N) :
  loop_trace (T := T) width m (N.succ j) =
  loop_trace width m j ++
    [Matmul (j * width, j * width + width);
     Print (Iteration (j * width + width));
     Print (CurrentShape (m, j * width + width))].
Proof.
  unfold loop_trace. rewrite iota_succ, flat_map_app. reflexivity.
Qed.

Lemma blocks_of_loop_trace (width m len : N) :
  blocks_of (loop_trace (T := T) width m len) =
  map (fun k => (k * width, k * width + width)) (iota len).
Proof.
  unfold loop_trace. induction (iota len) as [| k l IH]; simpl; [reflexivity |].
  now rewrite IH.
Qed.

Lemma multiplies_loop_trace (width m len : N) :
  multiplies (loop_trace (T := T) width m len) =
  map Matmul (blocks_of (loop_trace (T := T) width m len)).
Proof.
  unfold loop_trace, multiplies. induction (iota len) as [| k l IH]; simpl;
    [reflexivity |].
  now rewrite IH.
Qed.

Lemma artifacts_loop_trace (width m len : N) :
  artifacts (loop_trace (T := T) width m len) = [].
Proof.
  unfold loop_trace. induction (iota len) as [| k l IH]; simpl; [reflexivity |].
  exact IH.
Qed.

End RunFacts.

(** ** Blocked mode *)

Section BlockedFacts.
Context {T : Type} `{Scalar T}.
Variables (width split : N) (A B : ndarray T).
Hypothesis Hwidth : 1 <= width.
Hypothesis Hsplit : 1 <= split.
Hypothesis Hinner : shape1 A = shape0 B.

Let n := shape1 B.
Let D := product A B.

(** Appending the block of columns [a, b) to the first [a] columns
    gives the first [b] columns. *)
Lemma append_block (AB : option (ndarray T)) (a b : N) :
  accumulated_upto A B a AB -> a < b ->
  exists R, concat_with split AB (slice_cols a (Some b) D) 1 = Done R /\
            same_array R (slice_cols 0 (Some b) D).
Proof.
  intros Hacc Hab. destruct AB as [X |]; simpl in Hacc.
  - destruct Hacc as (Ha & HX).
    assert (HX0 : shape0 X = shape0 (slice_cols a (Some b) D)) by apply HX.
    destruct (concat_with_some split X (slice_cols a (Some b) D) Hsplit HX0)
      as (R & HR & Hsame).
    exists R. split; [exact HR |].
    eapply same_array_trans; [exact Hsame |].
    eapply same_array_trans;
      [apply hstack_same; [exact HX0 | exact HX | apply same_array_refl] |].
    apply slice_cols_adjacent. lia.
  - subst a. exists (slice_cols 0 (Some b) D). split; [reflexivity |].
    apply same_array_refl.
Qed.

(** One turn of the loop, from cursor [a] to item [b]. *)
Lemma blocked_step_run (AB : option (ndarray T)) (a b : N) :
  accumulated_upto A B a AB -> a < b -> b <= n ->
  exists R,
    blocked_step split A B (AB, a) b =
      ([Matmul (a, b); Print (Iteration b); Print (CurrentShape (shape0 A, b))],
       Done (Some R, b)) /\
    (try blk <- matmul A (slice_cols a (Some b) B);
     try AB' <- concat_with split AB (asnumpy blk) 1;
     Done (Some AB')) = Done (Some R) /\
    accumulated_upto A B b (Some R).
Proof.
  intros Hacc Hab Hbn.
  destruct (append_block AB a b Hacc Hab) as (R & HR & Hsame).
  exists R. unfold blocked_step, matmul_cols.
  rewrite matmul_slice by exact Hinner. fold D.
  assert (Hshape : shape R = (shape0 A, b)).
  { destruct Hsame as (H0 & H1 & _). unfold shape. rewrite H0, H1.
    unfold slice_cols, slice_bounds. simpl. f_equal. fold n. lia. }
  split; [| split].
  - unfold slice_bounds. fold n.
    rewrite (N.min_l a n), (N.min_l b n) by lia.
    unfold emit, lift, print, ret, asnumpy. cbn [bind app].
    rewrite HR. cbn [bind app]. now rewrite Hshape.
  - unfold asnumpy. cbn [obind]. now rewrite HR.
  - split; [lia | exact Hsame].
Qed.

(** The loop after [j] of its turns. *)
Lemma blocked_loop_turns (j : N) :
  j <= range_len width n width ->
  exists AB,
    for_each (map (fun k => width + k * width) (iota j)) (None, 0)
             (blocked_step split A B) =
      (loop_trace width (shape0 A) j, Done (AB, j * width)) /\
    assemble split A B None
             (map (fun k => (k * width, k * width + width)) (iota j)) = Done AB /\
    accumulated_upto A B (j * width) AB.
Proof.
  induction j as [| j IH] using N.peano_ind; intros Hj.
  - exists None. repeat split.
  - destruct IH as (AB & Hrun & Hasm & Hacc); [lia |].
    assert (Hitem : width + j * width < n).
    { apply range_len_spec; [exact Hwidth | lia]. }
    destruct (blocked_step_run AB (j * width) (j * width + width) Hacc)
      as (R & Hstep & Hfeed & Hacc'); [lia | lia |].
    exists (Some R).
    rewrite !iota_succ, !map_app. cbn [map].
    rewrite for_each_snoc, Hrun, assemble_snoc, Hasm, loop_trace_succ.
    rewrite (N.add_comm width (j * width)), N.mul_succ_l.
    cbn [bind obind]. rewrite Hstep.
    split; [reflexivity |]. split; [exact Hfeed | exact Hacc'].
Qed.

(** The whole loop: [range_len width n width] turns. *)
Lemma blocked_loop_run :
  let len := range_len width n width in
  exists AB,
    blocked_loop width split A B =
      (loop_trace width (shape0 A) len, Done (AB, len * width)) /\
    assemble split A B None
             (map (fun k => (k * width, k * width + width)) (iota len)) = Done AB /\
    accumulated_upto A B (len * width) AB.
Proof.
  intros len.
  destruct (blocked_loop_turns len (N.le_refl _)) as (AB & Hrun & Hasm & Hacc).
  exists AB. split; [| split; assumption].
  unfold blocked_loop, range3.
  destruct (N.eqb_spec width 0) as [| _]; [lia |].
  unfold lift. cbn [bind]. fold n. fold len. now rewrite Hrun.
Qed.

(** The last step, from the state the loop leaves. *)
Lemma blocked_flush_run (AB : option (ndarray T)) :
  let prev_i := range_len width n width * width in
  accumulated_upto A B prev_i AB ->
  exists R,
    blocked_flush split A B (AB, prev_i) = ([Matmul (prev_i, n)], Done R) /\
    (try blk <- matmul A (slice_cols prev_i (Some n) B);
     try AB' <- concat_with split AB (asnumpy blk) 1;
     Done (Some AB')) = Done (Some R) /\
    same_array R D /\
    shape1 R = match AB with Some X => shape1 X | None => 0 end + (n - prev_i).
Proof.
  intros prev_i Hacc.
  destruct (cursor_bounds width n Hwidth) as (Hle & Hrest & Hlt).
  fold prev_i in Hle, Hrest, Hlt.
  unfold blocked_flush, matmul_cols.
  rewrite slice_cols_open, !matmul_slice by exact Hinner. fold n. fold D.
  unfold asnumpy, emit, lift, slice_bounds. cbn [bind obind app]. fold n.
  rewrite (N.min_l prev_i n) by exact Hle.
  destruct AB as [X |]; simpl in Hacc.
  - destruct (append_block (Some X) prev_i n) as (R & HR & Hsame);
      [exact Hacc | lia |].
    exists R. rewrite HR. split; [reflexivity |]. split; [reflexivity |].
    assert (HD : same_array R D).
    { eapply same_array_trans; [exact Hsame |]. apply slice_cols_all.
      unfold D. simpl. fold n. lia. }
    split; [exact HD |].
    destruct HD as (_ & H1 & _). destruct Hacc as (_ & _ & HX1 & _).
    rewrite H1, HX1. unfold D, slice_cols, slice_bounds. simpl. fold n. lia.
  - exists (slice_cols prev_i (Some n) D). rewrite Hacc in *.
    split; [reflexivity |]. split; [reflexivity |].
    split.
    + apply slice_cols_all. unfold D. simpl. fold n. lia.
    + unfold D, slice_cols, slice_bounds. simpl. fold n. lia.
Qed.

(** Blocked mode as a whole. *)
Lemma blocked_mode_run :
  let len := range_len width n width in
  exists AB tr2 R,
    blocked_loop width split A B =
      (loop_trace width (shape0 A) len, Done (AB, len * width)) /\
    blocked_flush split A B (AB, len * width) = (tr2, Done R) /\
    tr2 = [Matmul (len * width, n)] /\
    blocked_mode width split A B =
      (loop_trace width (shape0 A) len ++ tr2, Done R) /\
    assemble split A B None (column_ranges width n) = Done (Some R) /\
    same_array R D /\
    shape1 R = match AB with Some X => shape1 X | None => 0 end + (n - len * width).
Proof.
  intros len.
  destruct blocked_loop_run as (AB & Hloop & Hasm & Hacc). fold len in Hloop, Hasm, Hacc.
  destruct (blocked_flush_run AB Hacc) as (R & Hflush & Hfeed & Hsame & Hcols).
  fold len in Hflush, Hfeed, Hcols.
  exists AB, [Matmul (len * width, n)], R.
  split; [exact Hloop |]. split; [exact Hflush |]. split; [reflexivity |].
  split; [| split; [| split; assumption]].
  - unfold blocked_mode. rewrite Hloop. cbn [bind]. now rewrite Hflush.
  - unfold column_ranges. fold len. now rewrite assemble_snoc, Hasm.
Qed.

End BlockedFacts.

(** ** The whole run *)

Section MainFacts.
Context {T : Type} `{Scalar T} {cp : Cupy}.
Variables (args : Args) (A B : ndarray T).
Hypothesis Hinner : shape1 A = shape0 B.

Let loading : event T :=
  if truthy (cpu_only args) then Print LoadingNumpy else Print LoadingCupy.

(** The write and the closing line, case by case. *)
Lemma finish_run (AB : result_array T) :
  finish args AB =
  match truthy (hdf5 args), AB with
  | true, DaskArray X =>
      ([ToHdf5 (ofile args ++ ".hdf5") "/AB" X; Print MultiplicationDone], Done tt)
  | true, XpArray _ => ([], Raise ValueError)
  | false, XpArray X =>
      ([Save (npy_name (ofile args)) X; Print MultiplicationDone], Done tt)
  | false, DaskArray X =>
      if truthy (cpu_only args) || save_takes_array_like
      then ([Save (npy_name (ofile args)) X; Print MultiplicationDone], Done tt)
      else ([], Raise AttributeError)
  end.
Proof.
  unfold finish, to_hdf5, xp_save.
  destruct (truthy (hdf5 args)), AB; try reflexivity.
  destruct (truthy (cpu_only args) || save_takes_array_like); reflexivity.
Qed.

(** The end of a run has no multiplication and no line but the closing
    one, and writes nothing but its array, once and only if it ends
    normally. *)
Lemma finish_events (AB : result_array T) :
  multiplies (fst (finish args AB)) = [] /\
  blocks_of (fst (finish args AB)) = [] /\
  (forall line, In (Print line) (fst (finish args AB)) -> line = MultiplicationDone) /\
  (artifacts (fst (finish args AB)) = [] \/
   artifacts (fst (finish args AB)) = [content AB]) /\
  (snd (finish args AB) = Done tt -> artifacts (fst (finish args AB)) = [content AB]).
Proof.
  rewrite finish_run.
  destruct (truthy (hdf5 args)), AB as [X | X];
    try destruct (truthy (cpu_only args) || save_takes_array_like);
    simpl; (split; [reflexivity |]); (split; [reflexivity |]);
    (split; [intros line Hin;
             repeat (destruct Hin as [Hin | Hin]; [now inversion Hin |]);
             destruct Hin |]);
    (split; [auto |]); intros Hend; (reflexivity || discriminate Hend).
Qed.

Lemma multiply_direct :
  too_large args A B = false ->
  multiply args A B = ([Dot], Done (XpArray (product A B))).
Proof.
  intros Hmode. unfold multiply, direct_mode.
  now rewrite Hmode, (matmul_ok A B Hinner).
Qed.

Lemma multiply_blocked :
  too_large args A B = true ->
  exists R,
    let trb := loop_trace GPU_COL_LIMIT (shape0 A)
                 (range_len GPU_COL_LIMIT (shape1 B) GPU_COL_LIMIT) ++
               [Matmul (range_len GPU_COL_LIMIT (shape1 B) GPU_COL_LIMIT * GPU_COL_LIMIT,
                        shape1 B)] in
    blocked_mode GPU_COL_LIMIT SPLIT_SIZE A B = (trb, Done R) /\
    same_array R (product A B) /\
    multiply args A B =
      ([Print (LargeResult (shape0 A, shape1 B)); Print ColumnByColumn] ++ trb,
       Done (DaskArray R)).
Proof.
  intros Hmode.
  assert (Hw : 1 <= GPU_COL_LIMIT) by (unfold GPU_COL_LIMIT; lia).
  assert (Hs : 1 <= SPLIT_SIZE) by (unfold SPLIT_SIZE; lia).
  destruct (blocked_mode_run GPU_COL_LIMIT SPLIT_SIZE A B Hw Hs Hinner)
    as (AB & tr2 & R & _ & _ & -> & Hrun & _ & Hsame & _).
  exists R. cbv zeta. split; [exact Hrun |]. split; [exact Hsame |].
  unfold multiply. rewrite Hmode.
  unfold print, emit, ret. cbn [bind app]. rewrite Hrun. cbn [bind app].
  now rewrite app_nil_r.
Qed.

(** A run on compatible inputs: the loading line, the multiplication,
    the two lines about the array to save, and the end. *)
Lemma main_after_multiply (trm : list (event T)) (AB : result_array T) :
  multiply args A B = (trm, Done AB) ->
  shape (content AB) = (shape0 A, shape1 B) ->
  main args A B =
    ((loading :: trm) ++
     [Print TypeToSave; Print (CurrentShape (shape0 A, shape1 B))] ++
     fst (finish args AB),
     snd (finish args AB)).
Proof.
  intros Hmul Hshape. unfold main, loading.
  rewrite Hinner, N.eqb_refl.
  destruct (truthy (cpu_only args)); unfold print, emit, ret;
    cbn [negb bind app]; rewrite Hmul; cbn [bind app]; rewrite Hshape;
    destruct (finish args AB) as [trf o]; reflexivity.
Qed.

Lemma main_direct :
  too_large args A B = false ->
  main args A B =
    ([loading; Dot; Print TypeToSave; Print (CurrentShape (shape0 A, shape1 B))] ++
     fst (finish args (XpArray (product A B))),
     snd (finish args (XpArray (product A B)))).
Proof.
  intros Hmode.
  now rewrite (main_after_multiply _ _ (multiply_direct Hmode) eq_refl).
Qed.

Lemma main_blocked :
  too_large args A B = true ->
  exists R,
    let trb := loop_trace GPU_COL_LIMIT (shape0 A)
                 (range_len GPU_COL_LIMIT (shape1 B) GPU_COL_LIMIT) ++
               [Matmul (range_len GPU_COL_LIMIT (shape1 B) GPU_COL_LIMIT * GPU_COL_LIMIT,
                        shape1 B)] in
    blocked_mode GPU_COL_LIMIT SPLIT_SIZE A B = (trb, Done R) /\
    same_array R (product A B) /\
    main args A B =
      (([Print LoadingCupy; Print (LargeResult (shape0 A, shape1 B));
         Print ColumnByColumn] ++ trb) ++
       [Print TypeToSave; Print (CurrentShape (shape0 A, shape1 B))] ++
       fst (finish args (DaskArray R)),
       snd (finish args (DaskArray R))).
Proof.
  intros Hmode.
  destruct (multiply_blocked Hmode) as (R & Hrun & Hsame & Hmul).
  exists R. cbv zeta in *. split; [exact Hrun |]. split; [exact Hsame |].
  assert (Hshape : shape (content (DaskArray R)) = (shape0 A, shape1 B)).
  { destruct Hsame as (H0 & H1 & _). unfold shape. simpl. now rewrite H0, H1. }
  rewrite (main_after_multiply _ _ Hmul Hshape).
  unfold loading. unfold too_large in Hmode. apply andb_prop in Hmode as (Hcpu & _).
  apply negb_true_iff in Hcpu. rewrite Hcpu. reflexivity.
Qed.

(** A run on compatible inputs, in either mode. *)
Lemma main_compatible :
  exists trm AB,
    multiply args A B = (trm, Done AB) /\
    shape (content AB) = (shape0 A, shape1 B) /\
    same_array (content AB) (product A B) /\
    artifacts trm = [] /\
    (forall line, In (Print line) trm -> line <> MultiplicationDone) /\
    AB = (if too_large args A B then DaskArray (content AB) else XpArray (content AB)) /\
    main args A B =
      ((loading :: trm) ++
       [Print TypeToSave; Print (CurrentShape (shape0 A, shape1 B))] ++
       fst (finish args AB),
       snd (finish args AB)).
Proof.
  destruct (too_large args A B) eqn:Hmode.
  - destruct (multiply_blocked Hmode) as (R & _ & Hsame & Hmul). cbv zeta in Hmul.
    assert (Hshape : shape (content (DaskArray R)) = (shape0 A, shape1 B)).
    { destruct Hsame as (H0 & H1 & _). unfold shape. simpl. now rewrite H0, H1. }
    eexists. exists (DaskArray R).
    split; [exact Hmul |]. split; [exact Hshape |]. split; [exact Hsame |].
    split; [| split; [| split; [reflexivity |
                                exact (main_after_multiply _ _ Hmul Hshape)]]].
    + rewrite !artifacts_app, artifacts_loop_trace. reflexivity.
    + intros line Hin Heq. subst line.
      apply in_app_or in Hin as [Hin | Hin].
      * simpl in Hin. destruct Hin as [Hin | [Hin | []]]; discriminate Hin.
      * apply in_app_or in Hin as [Hin | Hin].
        -- unfold loop_trace in Hin. apply in_flat_map in Hin as (k & _ & Hk).
           simpl in Hk. destruct Hk as [Hk | [Hk | [Hk | []]]]; discriminate Hk.
        -- simpl in Hin. destruct Hin as [Hin | []]. discriminate Hin.
  - exists [Dot], (XpArray (product A B)).
    split; [exact (multiply_direct Hmode) |]. split; [reflexivity |].
    split; [apply same_array_refl |]. split; [reflexivity |].
    split; [| split; [reflexivity |
                      exact (main_after_multiply _ _ (multiply_direct Hmode) eq_refl)]].
    intros line Hin. simpl in Hin. destruct Hin as [Hin | []]. discriminate Hin.
Qed.

End MainFacts.

(** * Properties of the specification *)

(** ** Scenarios of the specification, run on sample arrays *)

Example scenario_two_even_blocks :
  blocks_of (fst (blocked_mode 2 1 Samples.A43 Samples.B34)) = [(0, 2); (2, 4)].
Proof. reflexivity. Qed.

Example scenario_remainder_block :
  blocks_of (fst (blocked_mode 2 1 Samples.A22 Samples.B25)) = [(0, 2); (2, 4); (4, 5)].
Proof. reflexivity. Qed.

Example scenario_mismatch :
  main (cp := Samples.save_by_asnumpy) Samples.gpu_args Samples.A43 Samples.B54 =
  ([Print LoadingCupy; Print (DimensionError (4, 3) (5, 4))], Exit 1).
Proof. reflexivity. Qed.

(** Past the element limit the run goes column by column, unless
    [cpu_only] is set. *)
Example large_result_blocks :
  blocks_of (fst (main (cp := Samples.save_by_asnumpy)
                       Samples.gpu_args Samples.taller Samples.wide5001)) =
  [(0, 5000); (5000, 5001)].
Proof. reflexivity. Qed.

Example large_result_on_cpu :
  multiplies (fst (main (cp := Samples.save_by_asnumpy)
                        Samples.cpu_args Samples.tall Samples.wide)) = [Dot].
Proof. reflexivity. Qed.

Example npy_name_kept : npy_name "ab.npy" = "ab.npy"%string.
Proof. reflexivity. Qed.

Example npy_name_added : npy_name "ab" = "ab.npy"%string.
Proof. reflexivity. Qed.

(** In direct mode the array to save is not a dask array, and
    [da.to_hdf5] refuses it: nothing is written. *)
Example hdf5_in_direct_mode :
  main (cp := Samples.save_by_asnumpy) Samples.hdf5_args Samples.A43 Samples.B34 =
  ([Print LoadingCupy; Dot; Print TypeToSave; Print (CurrentShape (4, 4))],
   Raise ValueError).
Proof. reflexivity. Qed.

Example scenario_blocked_entries :
  option_map to_rows
    (match snd (blocked_mode 2 1 Samples.A43 Samples.B34) with
     | Done R => Some R
     | _ => None
     end) = Some (to_rows (product Samples.A43 Samples.B34)).
Proof. reflexivity. Qed.

(** A block width or a sub-split width of zero is no width at all: the
    loop's [range] or the assembler's division raises. *)
Example zero_block_width_raises :
  snd (blocked_mode 0 1 Samples.A43 Samples.B34) = Raise ValueError.
Proof. reflexivity. Qed.

Example zero_split_width_raises :
  concat_with 0 (Some Samples.A43) (product Samples.A43 Samples.B34) 1 =
  Raise ZeroDivisionError.
Proof. reflexivity. Qed.

(** C1. For compatible [A] (m x k) and [B] (k x n) over any exact element
    arithmetic, blocked mode (block multiplies, each appended by [concat])
    ends with an array that is equal, entry for entry, to the single
    multiply of direct mode; this holds for every positive block width,
    dividing [n] or not, and every positive sub-split width. *)
Theorem blocked_equals_direct {T : Type} `{Scalar T}
    (width split : N) (A B : ndarray T) :
  1 <= width -> 1 <= split -> shape1 A = shape0 B ->
  exists trb R trd D,
    blocked_mode width split A B = (trb, Done R) /\
    direct_mode A B = (trd, Done D) /\
    same_array R D /\
    to_rows R = to_rows D.
Proof.
  intros Hwidth Hsplit Hinner.
  destruct (blocked_mode_run width split A B Hwidth Hsplit Hinner)
    as (AB & tr2 & R & _ & _ & _ & Hrun & _ & Hsame & _).
  exists (loop_trace width (shape0 A) (range_len width (shape1 B) width) ++ tr2),
         R, [Dot], (product A B).
  split; [exact Hrun |]. split.
  - unfold direct_mode. now rewrite (matmul_ok A B Hinner).
  - split; [exact Hsame | now apply same_array_rows].
Qed.

Lemma blocked_equals_direct_witness :
  (1 <= 2 /\ 1 <= 3 /\ shape1 Samples.A22 = shape0 Samples.B25) /\
  exists trb R trd D,
    blocked_mode 2 3 Samples.A22 Samples.B25 = (trb, Done R) /\
    direct_mode Samples.A22 Samples.B25 = (trd, Done D) /\
    same_array R D /\
    to_rows R = to_rows D.
Proof.
  split; [repeat split; lia |].
  apply (blocked_equals_direct 2 3 Samples.A22 Samples.B25); [lia | lia | reflexivity].
Defined.

(** C2. For compatible inputs, in either mode, the multiplication ends
    with a result that has [A.shape[0]] rows and [B.shape[1]] columns;
    the run prints that shape, any array it writes has it, and when the
    run ends normally it has written that result and nothing else. *)
Theorem result_shape {T : Type} `{Scalar T} {cp : Cupy}
    (args : Args) (A B : ndarray T) :
  shape1 A = shape0 B ->
  exists trm AB,
    multiply args A B = (trm, Done AB) /\
    shape0 (content AB) = shape0 A /\ shape1 (content AB) = shape1 B /\
    In (Print (CurrentShape (shape0 A, shape1 B))) (fst (main args A B)) /\
    Forall (fun W => shape0 W = shape0 A /\ shape1 W = shape1 B)
           (artifacts (fst (main args A B))) /\
    (snd (main args A B) = Done tt ->
     artifacts (fst (main args A B)) = [content AB]).
Proof.
  intros Hinner.
  destruct (main_compatible args A B Hinner)
    as (trm & AB & Hmul & Hshape & _ & Hart & _ & _ & Hmain).
  injection Hshape as H0 H1.
  destruct (finish_events args AB) as (_ & _ & _ & Hwritten & Hdone).
  exists trm, AB. split; [exact Hmul |]. split; [exact H0 |]. split; [exact H1 |].
  rewrite Hmain. cbn [fst snd].
  assert (Hall : artifacts ((Print (if truthy (cpu_only args)
                                    then LoadingNumpy else LoadingCupy) :: trm) ++
                            [Print TypeToSave;
                             Print (CurrentShape (shape0 A, shape1 B))] ++
                            fst (finish args AB)) =
                 artifacts (fst (finish args AB))).
  { rewrite !artifacts_app. cbn [artifacts]. rewrite Hart. reflexivity. }
  split; [| split].
  - apply in_or_app. right. simpl. auto.
  - destruct (truthy (cpu_only args)); rewrite Hall;
      destruct Hwritten as [-> | ->]; repeat constructor; assumption.
  - intros Hend. destruct (truthy (cpu_only args)); rewrite Hall; now apply Hdone.
Qed.

Lemma result_shape_witness :
  shape1 Samples.tall = shape0 Samples.wide /\
  exists trm AB,
    multiply Samples.gpu_args Samples.tall Samples.wide = (trm, Done AB) /\
    shape0 (content AB) = shape0 Samples.tall /\
    shape1 (content AB) = shape1 Samples.wide /\
    In (Print (CurrentShape (shape0 Samples.tall, shape1 Samples.wide)))
       (fst (main (cp := Samples.save_by_asnumpy)
                  Samples.gpu_args Samples.tall Samples.wide)) /\
    Forall (fun W => shape0 W = shape0 Samples.tall /\ shape1 W = shape1 Samples.wide)
           (artifacts (fst (main (cp := Samples.save_by_asnumpy)
                                 Samples.gpu_args Samples.tall Samples.wide))) /\
    (snd (main (cp := Samples.save_by_asnumpy)
               Samples.gpu_args Samples.tall Samples.wide) = Done tt ->
     artifacts (fst (main (cp := Samples.save_by_asnumpy)
                          Samples.gpu_args Samples.tall Samples.wide)) = [content AB]).
Proof.
  split; [reflexivity |].
  apply (result_shape (cp := Samples.save_by_asnumpy)
           Samples.gpu_args Samples.tall Samples.wide).
  reflexivity.
Defined.

(** C3. When [A.shape[1] != B.shape[0]] the run prints both shapes and
    exits with status 1; it has performed no multiplication and written
    no array. *)
Theorem mismatch_aborts {T : Type} `{Scalar T} {cp : Cupy}
    (args : Args) (A B : ndarray T) :
  shape1 A <> shape0 B ->
  exists tr status,
    main args A B = (tr, Exit status) /\
    status <> 0%Z /\
    last tr (Print MultiplicationDone) = Print (DimensionError (shape A) (shape B)) /\
    multiplies tr = [] /\
    artifacts tr = [].
Proof.
  intros Hinner. apply N.eqb_neq in Hinner.
  exists [if truthy (cpu_only args) then Print LoadingNumpy else Print LoadingCupy;
          Print (DimensionError (shape A) (shape B))], 1%Z.
  unfold main. rewrite Hinner.
  destruct (truthy (cpu_only args)); repeat split; discriminate.
Qed.

Lemma mismatch_aborts_witness :
  shape1 Samples.A43 <> shape0 Samples.B54 /\
  exists tr status,
    main (cp := Samples.save_by_asnumpy)
         Samples.gpu_args Samples.A43 Samples.B54 = (tr, Exit status) /\
    status <> 0%Z /\
    last tr (Print MultiplicationDone) =
      Print (DimensionError (shape Samples.A43) (shape Samples.B54)) /\
    multiplies tr = [] /\
    artifacts tr = [].
Proof.
  split; [discriminate |].
  apply (mismatch_aborts (cp := Samples.save_by_asnumpy)
           Samples.gpu_args Samples.A43 Samples.B54).
  discriminate.
Defined.

(** C4. For compatible inputs the run makes the single full multiply of
    direct mode exactly when [cpu_only] is set or the result has at most
    250,000,000 entries; otherwise it is in blocked mode and multiplies
    column range by column range.  A result of exactly 250,000,000
    entries is computed in direct mode. *)
Theorem mode_selection {T : Type} `{Scalar T} {cp : Cupy}
    (args : Args) (A B : ndarray T) :
  shape1 A = shape0 B ->
  let tr := fst (main args A B) in
  let direct := cpu_only args <> 0%Z \/ shape0 A * shape1 B <= 250000000 in
  (multiplies tr = [Dot] <-> direct) /\
  (multiplies tr = map Matmul (column_ranges 5000 (shape1 B)) /\
   In (Print ColumnByColumn) tr <-> ~ direct) /\
  (shape0 A * shape1 B = 250000000 -> multiplies tr = [Dot]).
Proof.
  intros Hinner tr direct.
  assert (Hdec : too_large args A B = false <-> direct).
  { unfold too_large, truthy, direct, GPU_IND_LIMIT.
    rewrite negb_involutive, andb_false_iff, Z.eqb_neq, N.ltb_ge. reflexivity. }
  assert (Hdirect : too_large args A B = false ->
            multiplies tr = [Dot] /\ ~ In (Print ColumnByColumn) tr).
  { intros Hmode. subst tr. rewrite (main_direct args A B Hinner Hmode).
    cbn [fst].
    destruct (finish_events args (XpArray (product A B)))
      as (Hnone & _ & Hlines & _).
    split.
    - rewrite multiplies_app, Hnone.
      destruct (truthy (cpu_only args)); reflexivity.
    - intros Hin. apply in_app_or in Hin as [Hin | Hin].
      + destruct (truthy (cpu_only args));
          repeat (destruct Hin as [Hin | Hin]; [discriminate Hin |]); exact Hin.
      + apply Hlines in Hin. discriminate Hin. }
  assert (Hblocked : too_large args A B = true ->
            multiplies tr = map Matmul (column_ranges 5000 (shape1 B)) /\
            In (Print ColumnByColumn) tr).
  { intros Hmode. subst tr.
    destruct (main_blocked args A B Hinner Hmode) as (R & _ & _ & ->).
    cbn [fst].
    destruct (finish_events args (DaskArray R)) as (Hnone & _).
    split.
    - rewrite !multiplies_app, multiplies_loop_trace, blocks_of_loop_trace, Hnone.
      unfold column_ranges. rewrite map_app.
      cbn [multiplies filter is_multiply app].
      rewrite app_nil_r. reflexivity.
    - apply in_or_app. left. apply in_or_app. left. simpl. auto. }
  assert (Hne : map (@Matmul T) (column_ranges 5000 (shape1 B)) <> [Dot]).
  { unfold column_ranges. rewrite map_app.
    destruct (map _ (map _ _)) as [| e l] eqn:Hl; simpl; [discriminate |].
    intros Heq. injection Heq as He _. subst e.
    apply (f_equal (@List.hd_error _)) in Hl.
    destruct (iota _); discriminate Hl. }
  destruct (too_large args A B) eqn:Hmode.
  - destruct (Hblocked eq_refl) as (Hmul & Hin).
    assert (Hnot : ~ direct) by (rewrite <- Hdec; discriminate).
    split; [| split].
    + split; [| intros; contradiction]. intros Hdot. congruence.
    + split; auto.
    + intros Heq. exfalso. apply Hnot. right. lia.
  - destruct (Hdirect eq_refl) as (Hmul & Hin).
    assert (Hyes : direct) by (now apply Hdec).
    split; [| split].
    + split; auto.
    + split; [intros (_ & Hc); contradiction | intros; contradiction].
    + intros _. exact Hmul.
Qed.

Lemma mode_selection_witness :
  shape1 Samples.at_limit = shape0 Samples.wide /\
  let tr := fst (main (cp := Samples.save_by_asnumpy)
                      Samples.gpu_args Samples.at_limit Samples.wide) in
  let direct := cpu_only Samples.gpu_args <> 0%Z \/
                shape0 Samples.at_limit * shape1 Samples.wide <= 250000000 in
  (multiplies tr = [Dot] <-> direct) /\
  (multiplies tr = map Matmul (column_ranges 5000 (shape1 Samples.wide)) /\
   In (Print ColumnByColumn) tr <-> ~ direct) /\
  (shape0 Samples.at_limit * shape1 Samples.wide = 250000000 -> multiplies tr = [Dot]).
Proof.
  split; [reflexivity |].
  apply (mode_selection (cp := Samples.save_by_asnumpy)
           Samples.gpu_args Samples.at_limit Samples.wide).
  reflexivity.
Defined.

(** C5. In blocked mode, for [n >= 1] columns, the column ranges that are
    multiplied (those of the loop, then the last one [[prev_i, n)]) are
    non-empty half-open ranges of width at most the block width, each
    ending before the next starts, pairwise disjoint, and a column is
    below [n] exactly when it lies in one of them; the result is what the
    assembler gives when fed their blocks in this order. *)
Theorem block_ranges_tile_columns {T : Type} `{Scalar T}
    (width split : N) (A B : ndarray T) :
  1 <= width -> 1 <= split -> shape1 A = shape0 B -> 1 <= shape1 B ->
  exists tr1 AB prev_i tr2 R,
    blocked_loop width split A B = (tr1, Done (AB, prev_i)) /\
    blocked_flush split A B (AB, prev_i) = (tr2, Done R) /\
    blocked_mode width split A B = (tr1 ++ tr2, Done R) /\
    let rs := blocks_of (tr1 ++ tr2) in
    rs = blocks_of tr1 ++ [(prev_i, shape1 B)] /\
    Forall (fun r => fst r < snd r /\ snd r - fst r <= width) rs /\
    StronglySorted before rs /\
    ForallOrdPairs disjoint rs /\
    (forall x, x < shape1 B <-> Exists (within x) rs) /\
    assemble split A B None rs = Done (Some R).
Proof.
  intros Hwidth Hsplit Hinner Hn.
  destruct (blocked_mode_run width split A B Hwidth Hsplit Hinner)
    as (AB & tr2 & R & Hloop & Hflush & -> & Hrun & Hasm & _).
  set (len := range_len width (shape1 B) width) in *.
  exists (loop_trace width (shape0 A) len), AB, (len * width),
         [Matmul (len * width, shape1 B)], R.
  split; [exact Hloop |]. split; [exact Hflush |]. split; [exact Hrun |].
  cbv zeta.
  assert (Hrs : blocks_of (loop_trace (T := T) width (shape0 A) len ++
                           [Matmul (len * width, shape1 B)]) =
                column_ranges width (shape1 B)).
  { rewrite blocks_of_app, blocks_of_loop_trace. reflexivity. }
  pose proof (column_ranges_tile width (shape1 B) Hwidth Hn) as Ht.
  rewrite Hrs. split; [| split; [| split; [| split; [| split]]]].
  - unfold column_ranges. fold len. now rewrite blocks_of_loop_trace.
  - exact (tiles_pieces _ _ _ _ Ht).
  - exact (tiles_sorted _ _ _ _ Ht).
  - exact (tiles_disjoint _ _ _ _ Ht).
  - intros x. rewrite <- (tiles_cover _ _ _ _ Ht x). lia.
  - exact Hasm.
Qed.

Lemma block_ranges_tile_columns_witness :
  (1 <= 2 /\ 1 <= 1 /\ shape1 Samples.A22 = shape0 Samples.B25 /\
   1 <= shape1 Samples.B25) /\
  exists tr1 AB prev_i tr2 R,
    blocked_loop 2 1 Samples.A22 Samples.B25 = (tr1, Done (AB, prev_i)) /\
    blocked_flush 1 Samples.A22 Samples.B25 (AB, prev_i) = (tr2, Done R) /\
    blocked_mode 2 1 Samples.A22 Samples.B25 = (tr1 ++ tr2, Done R) /\
    let rs := blocks_of (tr1 ++ tr2) in
    rs = blocks_of tr1 ++ [(prev_i, shape1 Samples.B25)] /\
    Forall (fun r => fst r < snd r /\ snd r - fst r <= 2) rs /\
    StronglySorted before rs /\
    ForallOrdPairs disjoint rs /\
    (forall x, x < shape1 Samples.B25 <-> Exists (within x) rs) /\
    assemble 1 Samples.A22 Samples.B25 None rs = Done (Some R).
Proof.
  split; [repeat split; simpl; lia |].
  apply (block_ranges_tile_columns 2 1 Samples.A22 Samples.B25);
    [lia | lia | reflexivity | simpl; lia].
Defined.

(** C6. For every positive sub-split width, appending a block to an
    accumulated array with as many rows gives, through the full sub-blocks
    and the remainder sub-block, the same array as concatenating the two
    in one piece; and the remainder slice, although its end may lie past
    the last column, holds exactly the last [cols mod split] columns of
    the block. *)
Theorem sub_split_is_plain_append {T : Type} `{Scalar T}
    (split : N) (accumulated newBlock : ndarray T) :
  1 <= split -> shape0 accumulated = shape0 newBlock ->
  (exists R U,
     concat_with split (Some accumulated) newBlock 1 = Done R /\
     concatenate [accumulated; newBlock] 1 = Done U /\
     same_array R U /\ to_rows R = to_rows U) /\
  let nsplits := shape1 newBlock / split in
  let rest := shape1 newBlock mod split in
  let last_slice :=
    slice_cols (nsplits * split) (Some (nsplits * split + split)) newBlock in
  shape0 last_slice = shape0 newBlock /\
  shape1 last_slice = rest /\
  forall r c, c < rest ->
    item last_slice r c = item newBlock r (shape1 newBlock - rest + c).
Proof.
  intros Hsplit Hrows. split.
  - destruct (concat_with_some split accumulated newBlock Hsplit Hrows)
      as (R & HR & Hsame).
    exists R, (hstack accumulated newBlock).
    split; [exact HR |]. split.
    + cbn [concatenate fold_left obind]. now apply join_cols.
    + split; [exact Hsame | now apply same_array_rows].
  - exact (remainder_slice split newBlock Hsplit).
Qed.

Lemma sub_split_is_plain_append_witness :
  (1 <= 2 /\ shape0 Samples.A43 = shape0 (product Samples.A43 Samples.B34)) /\
  ((exists R U,
     concat_with 2 (Some Samples.A43) (product Samples.A43 Samples.B34) 1 = Done R /\
     concatenate [Samples.A43; product Samples.A43 Samples.B34] 1 = Done U /\
     same_array R U /\ to_rows R = to_rows U) /\
   let newBlock := product Samples.A43 Samples.B34 in
   let nsplits := shape1 newBlock / 2 in
   let rest := shape1 newBlock mod 2 in
   let last_slice :=
     slice_cols (nsplits * 2) (Some (nsplits * 2 + 2)) newBlock in
   shape0 last_slice = shape0 newBlock /\
   shape1 last_slice = rest /\
   forall r c, c < rest ->
     item last_slice r c = item newBlock r (shape1 newBlock - rest + c)).
Proof.
  split; [split; [lia | reflexivity] |].
  apply (sub_split_is_plain_append 2 Samples.A43 (product Samples.A43 Samples.B34));
    [lia | reflexivity].
Defined.

(** C7. For every append of a block whose rows match those of the
    accumulated array (when there is one): an unset accumulated array
    becomes a view of the new block; otherwise the accumulated array gains
    exactly the block's columns and keeps its rows, which are also those
    of the block. *)
Theorem append_grows_columns {T : Type} `{Scalar T}
    (AB : option (ndarray T)) (newBlock : ndarray T) :
  (forall accumulated, AB = Some accumulated -> shape0 accumulated = shape0 newBlock) ->
  exists R,
    concat AB newBlock 1 = Done R /\
    match AB with
    | None => R = from_array newBlock
    | Some accumulated =>
        shape1 R = shape1 accumulated + shape1 newBlock /\
        shape0 R = shape0 accumulated /\
        shape0 R = shape0 newBlock
    end.
Proof.
  intros Hrows. destruct AB as [accumulated |].
  - assert (Hs : 1 <= SPLIT_SIZE) by (unfold SPLIT_SIZE; lia).
    specialize (Hrows accumulated eq_refl).
    destruct (concat_with_some SPLIT_SIZE accumulated newBlock Hs Hrows)
      as (R & HR & H0 & H1 & _).
    exists R. split; [exact HR |]. simpl in H0, H1.
    repeat split; congruence.
  - exists (from_array newBlock). split; reflexivity.
Qed.

Lemma append_grows_columns_witness :
  (forall accumulated, Some Samples.A43 = Some accumulated ->
     shape0 accumulated = shape0 (product Samples.A43 Samples.B34)) /\
  exists R,
    concat (Some Samples.A43) (product Samples.A43 Samples.B34) 1 = Done R /\
    shape1 R = shape1 Samples.A43 + shape1 (product Samples.A43 Samples.B34) /\
    shape0 R = shape0 Samples.A43 /\
    shape0 R = shape0 (product Samples.A43 Samples.B34).
Proof.
  assert (Hrows : forall accumulated, Some Samples.A43 = Some accumulated ->
            shape0 accumulated = shape0 (product Samples.A43 Samples.B34)).
  { intros accumulated Heq. injection Heq as <-. reflexivity. }
  split; [exact Hrows |].
  apply (append_grows_columns (Some Samples.A43) (product Samples.A43 Samples.B34)).
  exact Hrows.
Defined.

(** C9. Appending a block without columns to an accumulated array gives
    back that array. *)
Theorem append_nothing {T : Type} `{Scalar T} (accumulated newBlock : ndarray T) :
  shape1 newBlock = 0 ->
  exists R,
    concat (Some accumulated) newBlock 1 = Done R /\
    R = accumulated /\
    same_array R accumulated.
Proof.
  intros Hcols. exists accumulated.
  split; [| split; [reflexivity | apply same_array_refl]].
  unfold concat, concat_with. rewrite Hcols. reflexivity.
Qed.

Lemma append_nothing_witness :
  shape1 Samples.no_columns = 0 /\
  exists R,
    concat (Some Samples.A43) Samples.no_columns 1 = Done R /\
    R = Samples.A43 /\
    same_array R Samples.A43.
Proof.
  split; [reflexivity |].
  apply (append_nothing Samples.A43 Samples.no_columns). reflexivity.
Defined.

(** C10. In blocked mode, for [n >= 1] columns, the cursor [prev_i] left
    by the loop is below [n]: the last range [[prev_i, n)] has at least
    one column and at most the block width, so the last block is never
    empty; when the width divides [n] it is a full block. *)
Theorem cursor_before_end {T : Type} `{Scalar T}
    (width split : N) (A B : ndarray T) :
  1 <= width -> 1 <= split -> shape1 A = shape0 B -> 1 <= shape1 B ->
  exists tr1 AB prev_i tr2 R,
    blocked_loop width split A B = (tr1, Done (AB, prev_i)) /\
    blocked_flush split A B (AB, prev_i) = (tr2, Done R) /\
    blocks_of tr2 = [(prev_i, shape1 B)] /\
    prev_i < shape1 B /\
    1 <= shape1 B - prev_i <= width /\
    shape1 (slice_cols prev_i None B) = shape1 B - prev_i /\
    (shape1 B mod width = 0 -> shape1 B - prev_i = width).
Proof.
  intros Hwidth Hsplit Hinner Hn.
  destruct (blocked_mode_run width split A B Hwidth Hsplit Hinner)
    as (AB & tr2 & R & Hloop & Hflush & -> & _).
  destruct (cursor_bounds width (shape1 B) Hwidth) as (Hle & Hrest & Hlt).
  set (len := range_len width (shape1 B) width) in *.
  exists (loop_trace width (shape0 A) len), AB, (len * width),
         [Matmul (len * width, shape1 B)], R.
  split; [exact Hloop |]. split; [exact Hflush |]. split; [reflexivity |].
  specialize (Hlt Hn).
  split; [exact Hlt |]. split; [lia |]. split.
  - unfold slice_cols, slice_bounds. simpl. lia.
  - intros Hmod.
    assert (Hne : width <> 0) by lia.
    pose proof (N.div_mod (shape1 B) width Hne) as Hdm. rewrite Hmod in Hdm.
    set (q := shape1 B / width) in *.
    assert (Hq : 1 <= q) by nia.
    assert (Hlen : len = q - 1).
    { unfold len. replace (shape1 B) with (q * width) by lia.
      now apply range_len_multiple. }
    rewrite Hlen. nia.
Qed.

Lemma cursor_before_end_witness :
  (1 <= 2 /\ 1 <= 1 /\ shape1 Samples.A43 = shape0 Samples.B34 /\
   1 <= shape1 Samples.B34) /\
  exists tr1 AB prev_i tr2 R,
    blocked_loop 2 1 Samples.A43 Samples.B34 = (tr1, Done (AB, prev_i)) /\
    blocked_flush 1 Samples.A43 Samples.B34 (AB, prev_i) = (tr2, Done R) /\
    blocks_of tr2 = [(prev_i, shape1 Samples.B34)] /\
    prev_i < shape1 Samples.B34 /\
    1 <= shape1 Samples.B34 - prev_i <= 2 /\
    shape1 (slice_cols prev_i None Samples.B34) = shape1 Samples.B34 - prev_i /\
    (shape1 Samples.B34 mod 2 = 0 -> shape1 Samples.B34 - prev_i = 2).
Proof.
  split; [repeat split; simpl; lia |].
  apply (cursor_before_end 2 1 Samples.A43 Samples.B34);
    [lia | lia | reflexivity | simpl; lia].
Defined.

(** C8, as stated, fails: with 10000 columns and the block width 5000,
    which divides it, the loop makes one turn and stops at column 5000;
    the last step then appends the 5000 remaining columns, and the
    accumulated array grows from 5000 to 10000 columns. *)
Lemma flush_after_even_split_counterexample :
  shape1 Samples.wide mod GPU_COL_LIMIT = 0 /\
  too_large Samples.gpu_args Samples.tall Samples.wide = true /\
  exists tr1 AB prev_i tr2 R,
    blocked_loop GPU_COL_LIMIT SPLIT_SIZE Samples.tall Samples.wide =
      (tr1, Done (Some AB, prev_i)) /\
    blocked_flush SPLIT_SIZE Samples.tall Samples.wide (Some AB, prev_i) =
      (tr2, Done R) /\
    blocks_of tr2 = [(5000, 10000)] /\
    shape1 (slice_cols prev_i None Samples.wide) = 5000 /\
    shape1 AB = 5000 /\
    shape1 R = 10000 /\
    ~ same_array R AB.
Proof.
  split; [reflexivity |]. split; [reflexivity |].
  do 5 eexists.
  split; [reflexivity |]. split; [reflexivity |].
  split; [reflexivity |]. split; [reflexivity |].
  split; [reflexivity |]. split; [reflexivity |].
  intros (_ & Hcols & _). discriminate Hcols.
Qed.

(** C8, amended. In blocked mode, when the number [n] of columns is a
    positive multiple [q * width] of the block width, the loop stops at
    column [(q - 1) * width], and the last step appends the last full
    block: [width] columns are added to the accumulated array. *)
Theorem flush_after_even_split {T : Type} `{Scalar T}
    (width split q : N) (A B : ndarray T) :
  1 <= width -> 1 <= split -> shape1 A = shape0 B ->
  1 <= q -> shape1 B = q * width ->
  exists tr1 AB tr2 R,
    blocked_loop width split A B = (tr1, Done (AB, (q - 1) * width)) /\
    blocked_flush split A B (AB, (q - 1) * width) = (tr2, Done R) /\
    blocks_of tr2 = [((q - 1) * width, q * width)] /\
    shape1 (slice_cols ((q - 1) * width) None B) = width /\
    shape1 R = match AB with Some X => shape1 X | None => 0 end + width.
Proof.
  intros Hwidth Hsplit Hinner Hq Hn.
  destruct (blocked_mode_run width split A B Hwidth Hsplit Hinner)
    as (AB & tr2 & R & Hloop & Hflush & -> & _ & _ & _ & Hcols).
  rewrite Hn, (range_len_multiple width q Hwidth Hq) in *.
  exists (loop_trace width (shape0 A) (q - 1)), AB,
         [Matmul ((q - 1) * width, q * width)], R.
  split; [exact Hloop |]. split; [exact Hflush |]. split; [reflexivity |].
  split.
  - unfold slice_cols, slice_bounds. simpl. rewrite Hn. nia.
  - rewrite Hcols. f_equal. nia.
Qed.

Lemma flush_after_even_split_witness :
  (1 <= 2 /\ 1 <= 1 /\ shape1 Samples.A43 = shape0 Samples.B34 /\
   1 <= 2 /\ shape1 Samples.B34 = 2 * 2) /\
  exists tr1 AB tr2 R,
    blocked_loop 2 1 Samples.A43 Samples.B34 = (tr1, Done (AB, (2 - 1) * 2)) /\
    blocked_flush 1 Samples.A43 Samples.B34 (AB, (2 - 1) * 2) = (tr2, Done R) /\
    blocks_of tr2 = [((2 - 1) * 2, 2 * 2)] /\
    shape1 (slice_cols ((2 - 1) * 2) None Samples.B34) = 2 /\
    shape1 R = match AB with Some X => shape1 X | None => 0 end + 2.
Proof.
  split; [repeat split; lia |].
  apply (flush_after_even_split 2 1 2 Samples.A43 Samples.B34);
    [lia | lia | reflexivity | lia | reflexivity].
Defined.

(** * Further properties of the script *)

Section MoreFacts.
Context {T : Type} `{Scalar T}.

Lemma printed_loop_trace (width m len : N) :
  printed (loop_trace (T := T) width m len) =
  flat_map (fun k => [Iteration (k * width + width);
                      CurrentShape (m, k * width + width)]) (iota len).
Proof.
  unfold loop_trace. induction (iota len) as [| k l IH]; simpl; [reflexivity |].
  now rewrite IH.
Qed.

Lemma length_iota (k : N) : List.length (iota k) = N.to_nat k.
Proof. unfold iota. now rewrite length_map, length_seq. Qed.

Lemma nth_error_iota (k j : N) : j < k -> nth_error (iota k) (N.to_nat j) = Some j.
Proof.
  intros Hjk. unfold iota.
  rewrite nth_error_map, nth_error_seq.
  destruct (Nat.ltb_spec (N.to_nat j) (N.to_nat k)) as [_ | Hge]; [| lia].
  simpl. now rewrite N2Nat.id.
Qed.

(** With at most [width] columns the loop has no item. *)
Lemma range_len_short (width n : N) : n <= width -> range_len width n width = 0.
Proof.
  intros Hn. unfold range_len.
  destruct (N.ltb_spec width n); [lia | reflexivity].
Qed.

(** The number of items of the loop, for at least one column. *)
Lemma range_len_ceil (width n : N) :
  1 <= width -> 1 <= n -> range_len width n width + 1 = (n + width - 1) / width.
Proof.
  intros Hwidth Hn.
  assert (Hne : width <> 0) by lia.
  replace (n + width - 1) with ((n - 1) + 1 * width) by lia.
  rewrite N.div_add by exact Hne.
  f_equal. unfold range_len.
  destruct (N.ltb_spec width n) as [Hlt | Hge].
  - f_equal. lia.
  - symmetry. apply N.div_small. lia.
Qed.

End MoreFacts.

(** X1. For compatible inputs the array that comes to be saved is the
    product of [A] and [B], entry for entry, and nothing is written and
    the closing line is not printed before the final write.  That write
    is the last step but the closing line.  With [hdf5] set, in blocked
    mode the array is stored in [ofile + ".hdf5"] under ["/AB"]; in
    direct mode the array is not a dask array, [da.to_hdf5] raises
    [ValueError], and nothing is written.  With [hdf5] unset, in direct
    mode the array is saved in [ofile], with [.npy] added if it lacks it;
    in blocked mode so it is if [cupy.save] takes a dask array, and the
    run raises without writing otherwise. *)
Theorem main_writes_product {T : Type} `{Scalar T} {cp : Cupy}
    (args : Args) (A B : ndarray T) :
  shape1 A = shape0 B ->
  exists pre AB,
    same_array AB (product A B) /\
    to_rows AB = to_rows (product A B) /\
    artifacts pre = [] /\
    ~ In (Print MultiplicationDone) pre /\
    main args A B =
      match truthy (hdf5 args), too_large args A B with
      | true, true =>
          (pre ++ [ToHdf5 (ofile args ++ ".hdf5") "/AB" AB;
                   Print MultiplicationDone], Done tt)
      | true, false => (pre, Raise ValueError)
      | false, false =>
          (pre ++ [Save (npy_name (ofile args)) AB;
                   Print MultiplicationDone], Done tt)
      | false, true =>
          if save_takes_array_like
          then (pre ++ [Save (npy_name (ofile args)) AB;
                        Print MultiplicationDone], Done tt)
          else (pre, Raise AttributeError)
      end.
Proof.
  intros Hinner.
  destruct (main_compatible args A B Hinner)
    as (trm & AB & _ & _ & Hsame & Hart & Hlines & Hkind & Hmain).
  exists (((if truthy (cpu_only args) then Print LoadingNumpy else Print LoadingCupy)
           :: trm) ++
          [Print TypeToSave; Print (CurrentShape (shape0 A, shape1 B))]),
         (content AB).
  split; [exact Hsame |]. split; [now apply same_array_rows |].
  split; [| split].
  - destruct (truthy (cpu_only args)); rewrite artifacts_app; cbn [artifacts];
      now rewrite Hart.
  - intros Hin. apply in_app_or in Hin as [Hin | Hin].
    + destruct Hin as [Hin | Hin].
      * destruct (truthy (cpu_only args)); discriminate Hin.
      * now apply (Hlines _ Hin).
    + simpl in Hin. destruct Hin as [Hin | [Hin | []]]; discriminate Hin.
  - rewrite Hmain, (finish_run args AB), Hkind.
    assert (Hcpu : too_large args A B = true -> truthy (cpu_only args) = false).
    { unfold too_large. intros Hmode. apply andb_prop in Hmode as (Hcpu & _).
      now apply negb_true_iff in Hcpu. }
    destruct (truthy (hdf5 args)), (too_large args A B); cbn [content fst snd].
    + now rewrite <- app_assoc.
    + reflexivity.
    + rewrite (Hcpu eq_refl). cbn [orb].
      destruct save_takes_array_like; cbn [fst snd];
        [now rewrite <- app_assoc | reflexivity].
    + now rewrite <- app_assoc.
Qed.

Lemma main_writes_product_witness :
  shape1 Samples.taller = shape0 Samples.wide5001 /\
  exists pre AB,
    same_array AB (product Samples.taller Samples.wide5001) /\
    to_rows AB = to_rows (product Samples.taller Samples.wide5001) /\
    artifacts pre = [] /\
    ~ In (Print MultiplicationDone) pre /\
    main (cp := Samples.save_by_get)
         Samples.hdf5_args Samples.taller Samples.wide5001 =
      (pre ++ [ToHdf5 (ofile Samples.hdf5_args ++ ".hdf5") "/AB" AB;
               Print MultiplicationDone], Done tt).
Proof.
  split; [reflexivity |].
  apply (main_writes_product (cp := Samples.save_by_get)
           Samples.hdf5_args Samples.taller Samples.wide5001).
  reflexivity.
Defined.

(** X2. The loop of blocked mode reports after each block: turn [k]
    (from 0) prints the boundary [(k + 1) * width] and then the shape of
    the accumulated array, which has all the rows of [A] and exactly
    [(k + 1) * width] columns; nothing else is printed by the loop. *)
Theorem loop_progress {T : Type} `{Scalar T} (width split : N) (A B : ndarray T) :
  1 <= width -> 1 <= split -> shape1 A = shape0 B ->
  exists tr st,
    blocked_loop width split A B = (tr, Done st) /\
    printed tr =
      flat_map (fun k => [Iteration (k * width + width);
                          CurrentShape (shape0 A, k * width + width)])
               (iota (range_len width (shape1 B) width)).
Proof.
  intros Hwidth Hsplit Hinner.
  destruct (blocked_loop_run width split A B Hwidth Hsplit Hinner)
    as (AB & Hloop & _).
  eexists. eexists. split; [exact Hloop |]. apply printed_loop_trace.
Qed.

Lemma loop_progress_witness :
  (1 <= 2 /\ 1 <= 1 /\ shape1 Samples.A22 = shape0 Samples.B25) /\
  exists tr st,
    blocked_loop 2 1 Samples.A22 Samples.B25 = (tr, Done st) /\
    printed tr =
      flat_map (fun k => [Iteration (k * 2 + 2);
                          CurrentShape (shape0 Samples.A22, k * 2 + 2)])
               (iota (range_len 2 (shape1 Samples.B25) 2)).
Proof.
  split; [repeat split; lia |].
  apply (loop_progress 2 1 Samples.A22 Samples.B25); [lia | lia | reflexivity].
Defined.

(** X3. In blocked mode with at least one column, the number of block
    multiplies is the number of columns divided by the block width,
    rounded up. *)
Theorem multiply_count {T : Type} `{Scalar T} (width split : N) (A B : ndarray T) :
  1 <= width -> 1 <= split -> shape1 A = shape0 B -> 1 <= shape1 B ->
  exists tr R,
    blocked_mode width split A B = (tr, Done R) /\
    N.of_nat (List.length (multiplies tr)) = (shape1 B + width - 1) / width.
Proof.
  intros Hwidth Hsplit Hinner Hn.
  destruct (blocked_mode_run width split A B Hwidth Hsplit Hinner)
    as (AB & tr2 & R & _ & _ & -> & Hrun & _).
  eexists. exists R. split; [exact Hrun |].
  rewrite multiplies_app, multiplies_loop_trace, blocks_of_loop_trace.
  rewrite length_app, !length_map, length_iota. simpl List.length.
  rewrite <- (range_len_ceil width (shape1 B) Hwidth Hn). lia.
Qed.

Lemma multiply_count_witness :
  (1 <= 2 /\ 1 <= 1 /\ shape1 Samples.A22 = shape0 Samples.B25 /\
   1 <= shape1 Samples.B25) /\
  exists tr R,
    blocked_mode 2 1 Samples.A22 Samples.B25 = (tr, Done R) /\
    N.of_nat (List.length (multiplies tr)) = (shape1 Samples.B25 + 2 - 1) / 2.
Proof.
  split; [repeat split; simpl; lia |].
  apply (multiply_count 2 1 Samples.A22 Samples.B25);
    [lia | lia | reflexivity | simpl; lia].
Defined.

(** X4. In blocked mode the block multiplied at turn [k] of the loop
    covers the columns [[k * width, (k + 1) * width)], a full block; the
    one multiplied after the loop covers [[len * width, n)], where [len]
    is the number of turns; there is no other block. *)
Theorem block_positions {T : Type} `{Scalar T} (width split : N) (A B : ndarray T) :
  1 <= width -> 1 <= split -> shape1 A = shape0 B ->
  let len := range_len width (shape1 B) width in
  exists tr R,
    blocked_mode width split A B = (tr, Done R) /\
    List.length (blocks_of tr) = S (N.to_nat len) /\
    (forall k, k < len ->
       nth_error (blocks_of tr) (N.to_nat k) = Some (k * width, k * width + width)) /\
    nth_error (blocks_of tr) (N.to_nat len) = Some (len * width, shape1 B).
Proof.
  intros Hwidth Hsplit Hinner len.
  destruct (blocked_mode_run width split A B Hwidth Hsplit Hinner)
    as (AB & tr2 & R & _ & _ & -> & Hrun & _).
  fold len in Hrun.
  eexists. exists R. split; [exact Hrun |].
  rewrite blocks_of_app, blocks_of_loop_trace. cbn [blocks_of].
  assert (Hlen : List.length (map (fun k => (k * width, k * width + width)) (iota len))
                 = N.to_nat len) by now rewrite length_map, length_iota.
  split; [| split].
  - rewrite length_app, Hlen. simpl. lia.
  - intros k Hk. rewrite nth_error_app1 by (rewrite Hlen; lia).
    rewrite nth_error_map, (nth_error_iota len k Hk). reflexivity.
  - rewrite nth_error_app2 by (rewrite Hlen; lia).
    rewrite Hlen, Nat.sub_diag. reflexivity.
Qed.

Lemma block_positions_witness :
  (1 <= 2 /\ 1 <= 1 /\ shape1 Samples.A22 = shape0 Samples.B25) /\
  let len := range_len 2 (shape1 Samples.B25) 2 in
  exists tr R,
    blocked_mode 2 1 Samples.A22 Samples.B25 = (tr, Done R) /\
    List.length (blocks_of tr) = S (N.to_nat len) /\
    (forall k, k < len ->
       nth_error (blocks_of tr) (N.to_nat k) = Some (k * 2, k * 2 + 2)) /\
    nth_error (blocks_of tr) (N.to_nat len) = Some (len * 2, shape1 Samples.B25).
Proof.
  split; [repeat split; lia |].
  apply (block_positions 2 1 Samples.A22 Samples.B25); [lia | lia | reflexivity].
Defined.

(** X5. When [B] has at most [width] columns (none included), blocked
    mode makes no turn of its loop: it multiplies once, over all the
    columns, and the accumulated array, unset until then, becomes that
    block without any sub-splitting, so that the sub-split width plays no
    part; the result is the product. *)
Theorem single_block {T : Type} `{Scalar T} (width split : N) (A B : ndarray T) :
  1 <= width -> shape1 B <= width -> shape1 A = shape0 B ->
  blocked_loop width split A B = ([], Done (None, 0)) /\
  blocked_mode width split A B =
    ([Matmul (0, shape1 B)], Done (from_array (slice_cols 0 None (product A B)))) /\
  same_array (slice_cols 0 None (product A B)) (product A B).
Proof.
  intros Hwidth Hn Hinner.
  assert (Hloop : blocked_loop width split A B = ([], Done (None, 0))).
  { unfold blocked_loop, range3.
    destruct (N.eqb_spec width 0) as [| _]; [lia |].
    rewrite (range_len_short width (shape1 B) Hn). reflexivity. }
  split; [exact Hloop |]. split.
  - unfold blocked_mode. rewrite Hloop. cbn [bind].
    unfold blocked_flush, matmul_cols.
    rewrite matmul_slice by exact Hinner.
    unfold slice_bounds. rewrite N.min_0_l. reflexivity.
  - rewrite slice_cols_open. apply slice_cols_all. apply N.le_refl.
Qed.

Lemma single_block_witness :
  (1 <= 5 /\ shape1 Samples.B34 <= 5 /\ shape1 Samples.A43 = shape0 Samples.B34) /\
  blocked_loop 5 0 Samples.A43 Samples.B34 = ([], Done (None, 0)) /\
  blocked_mode 5 0 Samples.A43 Samples.B34 =
    ([Matmul (0, shape1 Samples.B34)],
     Done (from_array (slice_cols 0 None (product Samples.A43 Samples.B34)))) /\
  same_array (slice_cols 0 None (product Samples.A43 Samples.B34))
             (product Samples.A43 Samples.B34).
Proof.
  split; [repeat split; simpl; lia |].
  apply (single_block 5 0 Samples.A43 Samples.B34); [lia | simpl; lia | reflexivity].
Defined.

(** X6. Appends compose: appending a block and then a second one gives
    the same array as appending the two blocks joined side by side in one
    call, for blocks with the rows of the accumulated array. *)
Theorem append_twice {T : Type} `{Scalar T} (accumulated first second : ndarray T) :
  shape0 accumulated = shape0 first -> shape0 first = shape0 second ->
  exists R1 R2 R,
    concat (Some accumulated) first 1 = Done R1 /\
    concat (Some R1) second 1 = Done R2 /\
    concat (Some accumulated) (hstack first second) 1 = Done R /\
    same_array R2 R /\
    to_rows R2 = to_rows R.
Proof.
  intros Hfirst Hsecond.
  assert (Hs : 1 <= SPLIT_SIZE) by (unfold SPLIT_SIZE; lia).
  destruct (concat_with_some SPLIT_SIZE accumulated first Hs Hfirst)
    as (R1 & HR1 & Hsame1).
  assert (HR1rows : shape0 R1 = shape0 second).
  { destruct Hsame1 as (H0 & _). simpl in H0. congruence. }
  destruct (concat_with_some SPLIT_SIZE R1 second Hs HR1rows)
    as (R2 & HR2 & Hsame2).
  destruct (concat_with_some SPLIT_SIZE accumulated (hstack first second) Hs Hfirst)
    as (R & HR & Hsame).
  exists R1, R2, R.
  split; [exact HR1 |]. split; [exact HR2 |]. split; [exact HR |].
  assert (Hboth : same_array R2 R).
  { eapply same_array_trans; [exact Hsame2 |].
    eapply same_array_trans;
      [apply hstack_same; [exact HR1rows | exact Hsame1 | apply same_array_refl] |].
    eapply same_array_trans; [apply hstack_assoc |].
    apply same_array_sym. exact Hsame. }
  split; [exact Hboth | now apply same_array_rows].
Qed.

Lemma append_twice_witness :
  (shape0 Samples.A43 = shape0 (product Samples.A43 Samples.B34) /\
   shape0 (product Samples.A43 Samples.B34) = shape0 Samples.A43) /\
  exists R1 R2 R,
    concat (Some Samples.A43) (product Samples.A43 Samples.B34) 1 = Done R1 /\
    concat (Some R1) Samples.A43 1 = Done R2 /\
    concat (Some Samples.A43)
           (hstack (product Samples.A43 Samples.B34) Samples.A43) 1 = Done R /\
    same_array R2 R /\
    to_rows R2 = to_rows R.
Proof.
  split; [split; reflexivity |].
  apply (append_twice Samples.A43 (product Samples.A43 Samples.B34) Samples.A43);
    reflexivity.
Defined.

(** X7. An append leaves every entry accumulated so far where it was and
    puts entry [(r, c)] of the block at column [accumulated.shape[1] + c]
    of the same row. *)
Theorem append_keeps_entries {T : Type} `{Scalar T} (accumulated newBlock : ndarray T) :
  shape0 accumulated = shape0 newBlock ->
  exists R,
    concat (Some accumulated) newBlock 1 = Done R /\
    (forall r c, r < shape0 accumulated -> c < shape1 accumulated ->
       item R r c = item accumulated r c) /\
    (forall r c, r < shape0 accumulated -> c < shape1 newBlock ->
       item R r (shape1 accumulated + c) = item newBlock r c).
Proof.
  intros Hrows.
  assert (Hs : 1 <= SPLIT_SIZE) by (unfold SPLIT_SIZE; lia).
  destruct (concat_with_some SPLIT_SIZE accumulated newBlock Hs Hrows)
    as (R & HR & H0 & H1 & Hitem).
  simpl in H0, H1.
  exists R. split; [exact HR |]. split.
  - intros r c Hr Hc. rewrite Hitem by lia. simpl.
    destruct (N.ltb_spec c (shape1 accumulated)); [reflexivity | lia].
  - intros r c Hr Hc. rewrite Hitem by lia. simpl.
    destruct (N.ltb_spec (shape1 accumulated + c) (shape1 accumulated)); [lia |].
    f_equal. lia.
Qed.

Lemma append_keeps_entries_witness :
  shape0 Samples.A43 = shape0 (product Samples.A43 Samples.B34) /\
  exists R,
    concat (Some Samples.A43) (product Samples.A43 Samples.B34) 1 = Done R /\
    (forall r c, r < shape0 Samples.A43 -> c < shape1 Samples.A43 ->
       item R r c = item Samples.A43 r c) /\
    (forall r c, r < shape0 Samples.A43 ->
       c < shape1 (product Samples.A43 Samples.B34) ->
       item R r (shape1 Samples.A43 + c) = item (product Samples.A43 Samples.B34) r c).
Proof.
  split; [reflexivity |].
  apply (append_keeps_entries Samples.A43 (product Samples.A43 Samples.B34)).
  reflexivity.
Defined.



(** X9. The boundaries the loop of blocked mode runs over are the
    positive multiples of the block width strictly below the number of
    columns, in ascending order: the one of turn [k] is
    [(k + 1) * width]. *)
Theorem loop_boundaries (width n : N) :
  1 <= width ->
  exists items,
    range3 width n width = Done items /\
    (forall i, In i items <-> 0 < i /\ i < n /\ i mod width = 0) /\
    (forall k, k < range_len width n width ->
       nth_error items (N.to_nat k) = Some ((k + 1) * width)).
Proof.
  intros Hwidth.
  assert (Hne : width <> 0) by lia.
  exists (map (fun k => width + k * width) (iota (range_len width n width))).
  split; [| split].
  - unfold range3. destruct (N.eqb_spec width 0); [lia | reflexivity].
  - intros i. rewrite in_map_iff. split.
    + intros (k & <- & Hk). apply in_iota in Hk.
      apply (range_len_spec width n width k Hwidth) in Hk.
      split; [lia |]. split; [exact Hk |].
      replace (width + k * width) with ((1 + k) * width) by lia.
      apply N.Div0.mod_mul.
    + intros (Hpos & Hlt & Hmod).
      pose proof (N.div_mod i width Hne) as Hdm. rewrite Hmod in Hdm.
      set (q := i / width) in *.
      assert (Hq : 1 <= q) by nia.
      exists (q - 1). split; [nia |].
      apply in_iota. apply (range_len_spec width n width (q - 1) Hwidth). nia.
  - intros k Hk. rewrite nth_error_map, (nth_error_iota _ k Hk). simpl.
    f_equal. lia.
Qed.

Lemma loop_boundaries_witness :
  1 <= 2 /\
  exists items,
    range3 2 5 2 = Done items /\
    (forall i, In i items <-> 0 < i /\ i < 5 /\ i mod 2 = 0) /\
    (forall k, k < range_len 2 5 2 ->
       nth_error items (N.to_nat k) = Some ((k + 1) * 2)).
Proof.
  split; [lia |].
  apply (loop_boundaries 2 5). lia.
Defined.

(** X10. Whatever the inputs, the first thing a run does is to print
    which array library is in use: numpy when [cpu_only] is set, cupy
    otherwise. *)
Theorem backend_announced_first {T : Type} `{Scalar T} {cp : Cupy}
    (args : Args) (A B : ndarray T) :
  hd_error (fst (main args A B)) =
  Some (Print (if (cpu_only args =? 0)%Z then LoadingCupy else LoadingNumpy)).
Proof.
  unfold main, truthy, print, emit.
  destruct (cpu_only args =? 0)%Z; cbn [negb bind];
    match goal with
    | |- context [let '(tr', o) := ?p in _] => destruct p as [tr' o]
    end; reflexivity.
Qed.

(** X11. How a run ends is decided by the dimension check and the
    final write alone; the multiplication and the assembly never raise,
    empty arrays included.  The run exits with status 1 on a mismatch;
    otherwise it ends normally, except that with [hdf5] set in direct
    mode [da.to_hdf5] raises [ValueError], and that with [hdf5] unset in
    blocked mode [cupy.save] raises if it does not take a dask array. *)
Theorem outcome_by_check_and_write {T : Type} `{Scalar T} {cp : Cupy}
    (args : Args) (A B : ndarray T) :
  snd (main args A B) =
  if negb (shape1 A =? shape0 B) then Exit 1%Z
  else if truthy (hdf5 args)
       then (if too_large args A B then Done tt else Raise ValueError)
       else (if too_large args A B && negb save_takes_array_like
             then Raise AttributeError else Done tt).
Proof.
  destruct (N.eqb_spec (shape1 A) (shape0 B)) as [Hinner | Hinner]; cbn [negb].
  - destruct (main_compatible args A B Hinner)
      as (trm & AB & _ & _ & _ & _ & _ & Hkind & Hmain).
    rewrite Hmain, (finish_run args AB), Hkind. cbn [snd].
    assert (Hcpu : too_large args A B = true -> truthy (cpu_only args) = false).
    { unfold too_large. intros Hmode. apply andb_prop in Hmode as (Hcpu & _).
      now apply negb_true_iff in Hcpu. }
    destruct (truthy (hdf5 args)), (too_large args A B); cbn [andb];
      try reflexivity.
    rewrite (Hcpu eq_refl). cbn [orb].
    destruct save_takes_array_like; reflexivity.
  - apply N.eqb_neq in Hinner. unfold main. rewrite Hinner.
    destruct (truthy (cpu_only args)); reflexivity.
Qed.

(** X12. When the loop of blocked mode is over, the cursor is at
    [len * width], [len] being the number of turns, and the accumulated
    array is unset if no turn was made and otherwise holds exactly the
    first [len * width] columns of the product. *)
Theorem loop_accumulates_prefix {T : Type} `{Scalar T}
    (width split : N) (A B : ndarray T) :
  1 <= width -> 1 <= split -> shape1 A = shape0 B ->
  let len := range_len width (shape1 B) width in
  exists tr AB,
    blocked_loop width split A B = (tr, Done (AB, len * width)) /\
    match AB with
    | None => len = 0
    | Some X =>
        1 <= len /\
        shape0 X = shape0 A /\
        shape1 X = len * width /\
        forall r c, r < shape0 A -> c < len * width ->
          item X r c = item (product A B) r c
    end.
Proof.
  intros Hwidth Hsplit Hinner len.
  destruct (blocked_loop_run width split A B Hwidth Hsplit Hinner)
    as (AB & Hloop & _ & Hacc).
  fold len in Hloop, Hacc.
  destruct (cursor_bounds width (shape1 B) Hwidth) as (Hle & _). fold len in Hle.
  eexists. exists AB. split; [exact Hloop |].
  destruct AB as [X |]; simpl in Hacc.
  - destruct Hacc as (Hpos & H0 & H1 & Hitem).
    unfold slice_cols, slice_bounds in H0, H1, Hitem. simpl in H0, H1, Hitem.
    split; [nia |]. split; [exact H0 |]. split; [lia |].
    intros r c Hr Hc. rewrite Hitem by lia.
    rewrite N.min_0_l. reflexivity.
  - nia.
Qed.

Lemma loop_accumulates_prefix_witness :
  (1 <= 2 /\ 1 <= 1 /\ shape1 Samples.A22 = shape0 Samples.B25) /\
  let len := range_len 2 (shape1 Samples.B25) 2 in
  exists tr AB,
    blocked_loop 2 1 Samples.A22 Samples.B25 = (tr, Done (AB, len * 2)) /\
    match AB with
    | None => len = 0
    | Some X =>
        1 <= len /\
        shape0 X = shape0 Samples.A22 /\
        shape1 X = len * 2 /\
        forall r c, r < shape0 Samples.A22 -> c < len * 2 ->
          item X r c = item (product Samples.A22 Samples.B25) r c
    end.
Proof.
  split; [repeat split; lia |].
  apply (loop_accumulates_prefix 2 1 Samples.A22 Samples.B25);
    [lia | lia | reflexivity].
Defined.
